(** * galton.py: simulation and actuator sequencing of a Galton board

    A shallow embedding of [galton.py].  Python integers are [Z]; the
    probability [P] and the values of [random.uniform(0,1)] are rationals
    (the program only compares them with [<], which is exact on finite
    floats); the float quotient of the report and its rounding to one
    decimal are the device's, a function of the exact quotient that the
    environment supplies; dictionaries are [gmap]s; calls into the hub, the
    motors and [print] are recorded as a trace of events.  The module's top-level code
    is a computation in a state-and-exception monad whose third outcome,
    [Hang], is a call that blocks for ever. *)

From Stdlib Require Import ZArith QArith List String Lia.
From stdpp Require Import base gmap list strings fin_maps.
From Equations Require Import Equations.

Local Open Scope string_scope.
Local Open Scope list_scope.
Local Open Scope Z_scope.

(** ** Python primitives *)

(** [range(n)] for an integer [n]: empty when [n <= 0]. *)
Definition range (n : Z) : list Z := Z.of_nat <$> seq 0 (Z.to_nat n).

(** Truth value of an integer, as [if], [and], [or] and [not] test it. *)
Definition truthy (x : Z) : bool := negb (x =? 0).

(** The built-in exceptions the program can raise. *)
Inductive exn := KeyError | ZeroDivisionError | ValueError.

(** [sum(l)], [max(l)] and [min(l)] on lists of integers. *)
Definition py_sum (l : list Z) : Z := foldl Z.add 0 l.

Definition py_max (l : list Z) : exn + Z :=
  match l with
  | [] => inl ValueError
  | x :: l' => inr (foldl Z.max x l')
  end.

Definition py_min (l : list Z) : exn + Z :=
  match l with
  | [] => inl ValueError
  | x :: l' => inr (foldl Z.min x l')
  end.

(** True division [a / b] of two integers, kept exact. *)
Definition py_truediv (a b : Z) : exn + Q :=
  if b =? 0 then inl ZeroDivisionError else inr (Qmake a 1 / Qmake b 1)%Q.

(** ** Configuration, environment and effects *)

(** The module constants, lines 32-40, and [n_sim], line 64. *)
Record config := {
  MODE : string;
  P : Q;
  N : Z;
  B : Z;
  B_SIM : Z;
  MOTOR_SPEED : Z;
  MOTOR_OPENING_DEGREES : Z;
  TOP_MOTOR_ORDER : list string;
  BOT_MOTOR_ORDER : list string;
  n_sim : Z
}.

(** The constants as the source file sets them. *)
Definition source_config : config := {|
  MODE := "sim";
  P := (1 # 10)%Q;
  N := 10;
  B := 50;
  B_SIM := 100;
  MOTOR_SPEED := 10;
  MOTOR_OPENING_DEGREES := 30;
  TOP_MOTOR_ORDER := ["C"; "E"; "B"; "D"; "F"];
  BOT_MOTOR_ORDER := ["A"; "C"; "E"; "B"; "D"];
  n_sim := 10
|}.

(** What the program gets from outside: the successive values of
    [random.uniform(0,1)], the position each motor reports while at rest,
    whether the hub's left button is ever pressed, and the device's float
    arithmetic in the one place where the program uses it: [round1 q] is
    the value of [round(a / b, 1)] when the exact quotient of the integers
    [a] and [b] is [q].  Of the division and of the rounding only this is
    taken for granted: a quotient between two integers is printed as a
    value between them (integers are floats and multiples of 0.1, and both
    operations are monotone). *)
Record environment := {
  uniform : nat -> Q;
  get_position : string -> Z;
  left_button_pressed : bool;
  round1 : Q -> Q;
  round1_between : forall (a b : Z) (q : Q),
    (inject_Z a <= q)%Q -> (q <= inject_Z b)%Q ->
    (inject_Z a <= round1 q)%Q /\ (round1 q <= inject_Z b)%Q
}.

(** Calls that act on the outside world, in program order. *)
Inductive event :=
| EvPrintHeader (n : Z)
| EvPrintBin (pos : string) (bin : Z) (rounded_mean : Q) (maxval minval : Z)
| EvShowImage (image : string)
| EvGetPosition (port : string)
| EvPrintPositions (positions : gmap string Z)
| EvRunForRotations (port : string) (rotations : Z)
| EvWaitUntilPressed
| EvRunToPosition (port : string) (pos : Z) (direction : string) (speed : Z)
| EvWaitForSeconds (seconds : Z).

(** Program state: how many uniform values were drawn, the events so far
    (oldest first) and the global dictionary [initial_positions]. *)
Record state := {
  cursor : nat;
  trace : list event;
  initial_positions : gmap string Z
}.

Definition start : state :=
  {| cursor := 0; trace := []; initial_positions := ∅ |}.

Inductive result (A : Type) :=
| Ok (a : A) (s : state)
| Raise (e : exn) (s : state)
| Hang (s : state).
Arguments Ok {A} a s.
Arguments Raise {A} e s.
Arguments Hang {A} s.

Definition final_state {A} (r : result A) : state :=
  match r with Ok _ s | Raise _ s | Hang s => s end.

Definition M (A : Type) : Type := state -> result A.

Definition ret {A} (a : A) : M A := fun s => Ok a s.

Definition bind {A C} (m : M A) (k : A -> M C) : M C :=
  fun s =>
    match m s with
    | Ok a s' => k a s'
    | Raise e s' => Raise e s'
    | Hang s' => Hang s'
    end.

Notation "x <- m ;; k" := (bind m (fun x => k))
  (at level 100, m at next level, right associativity).
Notation "m ;;; k" := (bind m (fun _ => k))
  (at level 100, right associativity).

Definition raise {A} (e : exn) : M A := fun s => Raise e s.

Definition lift {A} (r : exn + A) : M A :=
  match r with inl e => raise e | inr a => ret a end.

Definition emit (ev : event) : M unit :=
  fun s => Ok tt {| cursor := cursor s; trace := trace s ++ [ev];
                    initial_positions := initial_positions s |}.

(** [for x in l: body], where [body] updates the local variables [v]. *)
Fixpoint for_in {A V} (l : list A) (body : A -> V -> M V) (v : V) : M V :=
  match l with
  | [] => ret v
  | x :: l' => v' <- body x v ;; for_in l' body v'
  end.

(** [d[k]] and [d[k] += n] on a dictionary: [KeyError] on a missing key. *)
Definition getitem `{Countable K} {V} (d : gmap K V) (k : K) : M V :=
  match d !! k with
  | Some v => ret v
  | None => raise KeyError
  end.

Definition setitem_add `{Countable K} (d : gmap K Z) (k : K) (n : Z) : M (gmap K Z) :=
  v <- getitem d k ;; ret (<[k := v + n]> d).

(** [d[k].append(x)]. *)
Definition setitem_append `{Countable K} {V} (d : gmap K (list V)) (k : K) (x : V)
  : M (gmap K (list V)) :=
  l <- getitem d k ;; ret (<[k := l ++ [x]]> d).

Section Program.

Variable cfg : config.
Variable env : environment.

(** ** Simulation *)

(** [bern()], lines 42-45: one uniform value is drawn and compared with [P]. *)
Definition bern : M Z :=
  fun s =>
    let s' := {| cursor := S (cursor s); trace := trace s;
                 initial_positions := initial_positions s |} in
    if Qlt_le_dec (uniform env (cursor s)) (P cfg) then Ok 1 s' else Ok 0 s'.

(** [run_one_simulation()], lines 47-60. *)
Definition run_one_simulation : M (gmap Z Z) :=
  let balls_in_bins := foldl (fun d bin => <[bin := 0]> d) ∅ (range (N cfg + 1)) in
  for_in (range (B_SIM cfg)) (fun _ball balls_in_bins =>
      landing_bin <- for_in (range (N cfg))
                       (fun _level landing_bin => r <- bern ;; ret (landing_bin + r)) 0 ;;
      setitem_add balls_in_bins landing_bin 1)
    balls_in_bins.

(** The label of a report line, lines 82-86. *)
Definition pos_label (bin : Z) : string :=
  if bin =? 0 then "     Left "
  else if bin =? N cfg then "   Right "
  else "            ".

(** The simulation branch, lines 63-87.  [mean] is the exact quotient of
    line 79; the line printed shows [round(mean, 1)] as the device computes
    it. *)
Definition main_sim : M unit :=
  let balls_in_bins_trials : gmap Z (list Z) :=
    foldl (fun d bin => <[bin := []]> d) ∅ (range (N cfg + 1)) in
  balls_in_bins_trials <-
    for_in (range (n_sim cfg)) (fun _ balls_in_bins_trials =>
        balls_in_bins <- run_one_simulation ;;
        for_in (range (N cfg + 1)) (fun bin balls_in_bins_trials =>
            c <- getitem balls_in_bins bin ;;
            setitem_append balls_in_bins_trials bin c)
          balls_in_bins_trials)
      balls_in_bins_trials ;;
  emit (EvPrintHeader (n_sim cfg)) ;;;
  for_in (range (N cfg + 1)) (fun bin _ =>
      l <- getitem balls_in_bins_trials bin ;;
      mean <- lift (py_truediv (py_sum l) (Z.of_nat (length l))) ;;
      maxval <- lift (py_max l) ;;
      minval <- lift (py_min l) ;;
      emit (EvPrintBin (pos_label bin) bin (round1 env mean) maxval minval))
    tt.

(** ** Physical board *)

(** Lines 93-98. *)
Definition motor_order : list string :=
  if String.eqb (MODE cfg) "top" then TOP_MOTOR_ORDER cfg else BOT_MOTOR_ORDER cfg.

Definition parity_start : Z :=
  if String.eqb (MODE cfg) "top" then 1 else 0.

(** [initial_positions[motor_id] = motor.get_position()], line 103. *)
Definition record_position (motor_id : string) : M unit :=
  fun s =>
    Ok tt {| cursor := cursor s;
             trace := trace s ++ [EvGetPosition motor_id];
             initial_positions :=
               <[motor_id := get_position env motor_id]> (initial_positions s) |}.

(** [initial_positions[motor_id]] read from the global dictionary. *)
Definition recorded_position (motor_id : string) : M Z :=
  fun s => getitem (initial_positions s) motor_id s.

(** [motor.run_to_position(pos, direction="shortest path", speed=MOTOR_SPEED)]. *)
Definition run_to_position (motor_id : string) (pos : Z) : M unit :=
  emit (EvRunToPosition motor_id pos "shortest path" (MOTOR_SPEED cfg)).

(** [hub.left_button.wait_until_pressed()]: returns once the button is
    pressed, and never returns when it never is. *)
Definition wait_until_pressed : M unit :=
  fun s =>
    match emit EvWaitUntilPressed s with
    | Ok _ s' => if left_button_pressed env then Ok tt s' else Hang s'
    | r => r
    end.

(** The body of the [for] of lines 119-129: [row_count] is the local it
    updates. *)
Definition move_motor (motor_id : string) (row_count : Z) : M Z :=
  right <- bern ;;
  let row_count := row_count + 1 in
  let parity := (parity_start + row_count) mod 2 in
  motor_pos <-
    (if (truthy right && negb (truthy parity)) || (negb (truthy right) && truthy parity)
     then p <- recorded_position motor_id ;;
          ret ((p + MOTOR_OPENING_DEGREES cfg) mod 360)
     else p <- recorded_position motor_id ;;
          ret ((p - MOTOR_OPENING_DEGREES cfg) mod 360)) ;;
  run_to_position motor_id motor_pos ;;;
  ret row_count.

(** The body of the [for] of lines 133-135. *)
Definition reset_motor (motor_id : string) (_ : unit) : M unit :=
  p <- recorded_position motor_id ;;
  run_to_position motor_id p.

(** One pass through the body of the [while], lines 118-135 ([ball_count]
    is incremented by the loop below). *)
Definition cycle : M unit :=
  for_in motor_order move_motor 0 ;;;
  emit (EvWaitForSeconds 5) ;;;
  for_in motor_order reset_motor tt.

(** [while ball_count < B], lines 116-135. *)
Equations? while_loop (ball_count : Z) (s : state) : result unit
  by wf (Z.to_nat (B cfg - ball_count)) lt :=
  while_loop ball_count s with Z_lt_dec ball_count (B cfg) := {
    | left _ with cycle s := {
        | Ok _ s' => while_loop (ball_count + 1) s'
        | Raise e s' => Raise e s'
        | Hang s' => Hang s' }
    | right _ => Ok tt s }.
Proof. lia. Qed.

(** The physical branch, lines 90-135. *)
Definition main_physical : M unit :=
  emit (EvShowImage "HEART") ;;;
  (fun s => Ok tt {| cursor := cursor s; trace := trace s; initial_positions := ∅ |}) ;;;
  for_in motor_order (fun motor_id _ => record_position motor_id) tt ;;;
  (fun s => emit (EvPrintPositions (initial_positions s)) s) ;;;
  (if String.eqb (MODE cfg) "top"
   then emit (EvRunForRotations "A" 1)
   else wait_until_pressed) ;;;
  while_loop 0.

(** The module's top-level code, lines 62-135. *)
Definition main : M unit :=
  if String.eqb (MODE cfg) "sim" then main_sim else main_physical.

End Program.

(** * Vocabulary of the properties *)

(** [sum(d.values())]. *)
Definition sum_values (d : gmap Z Z) : Z := map_fold (fun _ v acc => v + acc) 0 d.

(** The state after [n] more draws. *)
Definition advance (n : nat) (s : state) : state :=
  {| cursor := (n + cursor s)%nat; trace := trace s;
     initial_positions := initial_positions s |}.

Section SimulationTerms.

Variable cfg : config.
Variable env : environment.

(** The value [bern()] returns on the [i]-th uniform value. *)
Definition bern_value (i : nat) : Z :=
  if Qlt_le_dec (uniform env i) (P cfg) then 1 else 0.

(** How often [bern()] returns 1 over [n] draws from the [c]-th on. *)
Fixpoint rights (c n : nat) : Z :=
  match n with
  | O => 0
  | S n' => bern_value c + rights (S c) n'
  end.

(** The body of [for ball in range(B_SIM)]. *)
Definition drop_ball (balls_in_bins : gmap Z Z) : M (gmap Z Z) :=
  landing_bin <- for_in (range (N cfg))
                   (fun _level landing_bin => r <- bern cfg env ;; ret (landing_bin + r)) 0 ;;
  setitem_add balls_in_bins landing_bin 1.

(** The loop invariant of the trial: the keys are the bins [0..N], no count
    is negative, and the counts add up to the balls dropped so far. *)
Definition bins_ok (d : gmap Z Z) (k : Z) : Prop :=
  (forall j, is_Some (d !! j) <-> 0 <= j <= N cfg) /\
  (forall j v, d !! j = Some v -> 0 <= v) /\
  sum_values d = k.

(** What the dictionary is when all [b] balls are in bin [k] of [0..n]. *)
Definition all_in_bin (n b k : Z) (d : gmap Z Z) : Prop :=
  forall j, d !! j = if decide (0 <= j <= n)
                     then Some (if decide (j = k) then b else 0)
                     else None.

End SimulationTerms.

(** An arithmetic for the examples: the quotient to the nearest tenth,
    halves upwards. *)
Definition nearest_tenth (q : Q) : Q :=
  Qmake ((20 * Qnum q + Zpos (Qden q)) / (2 * Zpos (Qden q))) 10.

Lemma nearest_tenth_between (a b : Z) (q : Q) :
  (inject_Z a <= q)%Q -> (q <= inject_Z b)%Q ->
  (inject_Z a <= nearest_tenth q)%Q /\ (nearest_tenth q <= inject_Z b)%Q.
Proof.
  destruct q as [n d]. unfold Qle, nearest_tenth. simpl. intros Ha Hb. split.
  - rewrite Z.mul_1_r. apply Z.div_le_lower_bound; lia.
  - rewrite Z.mul_1_r.
    enough ((20 * n + Z.pos d) / (2 * Z.pos d) < b * 10 + 1) by lia.
    apply Z.div_lt_upper_bound; lia.
Qed.

(** A source of uniform values for the examples: 0.0, 0.1, ..., 0.9 and
    again. *)
Definition example_env : environment := {|
  uniform := fun i => Qmake (Z.of_nat (i mod 10)) 10;
  get_position := fun port => if String.eqb port "C" then 350 else 10;
  left_button_pressed := true;
  round1 := nearest_tenth;
  round1_between := nearest_tenth_between
|}.

(** The configuration with another value of one constant. *)
Definition with_P (cfg : config) (p : Q) : config := {|
  MODE := MODE cfg; P := p; N := N cfg; B := B cfg; B_SIM := B_SIM cfg;
  MOTOR_SPEED := MOTOR_SPEED cfg;
  MOTOR_OPENING_DEGREES := MOTOR_OPENING_DEGREES cfg;
  TOP_MOTOR_ORDER := TOP_MOTOR_ORDER cfg; BOT_MOTOR_ORDER := BOT_MOTOR_ORDER cfg;
  n_sim := n_sim cfg
|}.

Definition with_N (cfg : config) (n : Z) : config := {|
  MODE := MODE cfg; P := P cfg; N := n; B := B cfg; B_SIM := B_SIM cfg;
  MOTOR_SPEED := MOTOR_SPEED cfg;
  MOTOR_OPENING_DEGREES := MOTOR_OPENING_DEGREES cfg;
  TOP_MOTOR_ORDER := TOP_MOTOR_ORDER cfg; BOT_MOTOR_ORDER := BOT_MOTOR_ORDER cfg;
  n_sim := n_sim cfg
|}.

Definition with_n_sim (cfg : config) (n : Z) : config := {|
  MODE := MODE cfg; P := P cfg; N := N cfg; B := B cfg; B_SIM := B_SIM cfg;
  MOTOR_SPEED := MOTOR_SPEED cfg;
  MOTOR_OPENING_DEGREES := MOTOR_OPENING_DEGREES cfg;
  TOP_MOTOR_ORDER := TOP_MOTOR_ORDER cfg; BOT_MOTOR_ORDER := BOT_MOTOR_ORDER cfg;
  n_sim := n
|}.

Definition with_MODE (cfg : config) (mode : string) : config := {|
  MODE := mode; P := P cfg; N := N cfg; B := B cfg; B_SIM := B_SIM cfg;
  MOTOR_SPEED := MOTOR_SPEED cfg;
  MOTOR_OPENING_DEGREES := MOTOR_OPENING_DEGREES cfg;
  TOP_MOTOR_ORDER := TOP_MOTOR_ORDER cfg; BOT_MOTOR_ORDER := BOT_MOTOR_ORDER cfg;
  n_sim := n_sim cfg
|}.

(** The source's constants on the top hub and on another hub. *)
Definition top_config : config := with_MODE source_config "top".
Definition reg_config : config := with_MODE source_config "reg".

(** One ball on three levels, with draws that send it right, left and
    right. *)
Definition scenario_config : config := {|
  MODE := "sim"; P := (1 # 2)%Q; N := 3; B := 1; B_SIM := 1;
  MOTOR_SPEED := 10; MOTOR_OPENING_DEGREES := 30;
  TOP_MOTOR_ORDER := ["C"; "E"; "B"; "D"; "F"];
  BOT_MOTOR_ORDER := ["A"; "C"; "E"; "B"; "D"];
  n_sim := 1
|}.

Definition scenario_env : environment := {|
  uniform := fun i => if (i =? 1)%nat then (9 # 10)%Q else (1 # 10)%Q;
  get_position := fun _ => 0;
  left_button_pressed := true;
  round1 := nearest_tenth;
  round1_between := nearest_tenth_between
|}.

(** [random.uniform(0,1)] yields values of [[0,1)]. *)
Definition unit_interval (env : environment) : Prop :=
  forall i, (0 <= uniform env i)%Q /\ (uniform env i < 1)%Q.

(** A source that agrees with [example_env] on the first thousand values,
    written as other fractions, and differs afterwards. *)
Definition example_env' : environment := {|
  uniform := fun i => if (i <? 1000)%nat
                      then Qmake (2 * Z.of_nat (i mod 10)) 20
                      else Qmake 1 2;
  get_position := get_position example_env;
  left_button_pressed := false;
  round1 := nearest_tenth;
  round1_between := nearest_tenth_between
|}.

(** The state after the events [evs]. *)
Definition add_events (evs : list event) (s : state) : state :=
  {| cursor := cursor s; trace := trace s ++ evs;
     initial_positions := initial_positions s |}.

(** The body of [for bin in range(N + 1)], line 74. *)
Definition collect (balls_in_bins : gmap Z Z) (bin : Z) (trials : gmap Z (list Z))
  : M (gmap Z (list Z)) :=
  c <- getitem balls_in_bins bin ;; setitem_append trials bin c.

Section ReportTerms.

Variable cfg : config.
Variable env : environment.

(** The dictionary of the trials: a list of [k] counts for each bin. *)
Definition trials_ok (t : gmap Z (list Z)) (k : nat) : Prop :=
  forall j, 0 <= j <= N cfg -> exists lst, t !! j = Some lst /\ length lst = k.

(** The body of [for _ in range(n_sim)], lines 72-74. *)
Definition one_trial (trials : gmap Z (list Z)) : M (gmap Z (list Z)) :=
  balls_in_bins <- run_one_simulation cfg env ;;
  for_in (range (N cfg + 1)) (collect balls_in_bins) trials.

(** A report line of the bin [bin] for some list of [k] counts. *)
Definition is_report_line (k : nat) (bin : Z) (ev : event) : Prop :=
  exists lst mean maxval minval,
    length lst = k /\
    py_truediv (py_sum lst) (Z.of_nat k) = inr mean /\
    py_max lst = inr maxval /\
    py_min lst = inr minval /\
    ev = EvPrintBin (pos_label cfg bin) bin (round1 env mean) maxval minval.

(** The body of [for bin in range(N + 1)], lines 79-87. *)
Definition report_bin (trials : gmap Z (list Z)) (bin : Z) (_ : unit) : M unit :=
  l <- getitem trials bin ;;
  mean <- lift (py_truediv (py_sum l) (Z.of_nat (length l))) ;;
  maxval <- lift (py_max l) ;;
  minval <- lift (py_min l) ;;
  emit (EvPrintBin (pos_label cfg bin) bin (round1 env mean) maxval minval).

End ReportTerms.

(** The two roles of a hub: the top hub is the primary one. *)
Inductive Role := Primary | Secondary.

Definition role_of (cfg : config) : Role :=
  if String.eqb (MODE cfg) "top" then Primary else Secondary.

Definition parity_start_of (r : Role) : Z :=
  match r with Primary => 1 | Secondary => 0 end.

(** The direction table, in the words of the specification. *)
Definition move_right (right : bool) (parity : Z) : bool :=
  (right && (parity =? 0)) || (negb right && (parity =? 1)).

(** The state with another dictionary of positions. *)
Definition set_positions (d : gmap string Z) (s : state) : state :=
  {| cursor := cursor s; trace := trace s; initial_positions := d |}.

Section PhysicalTerms.

Variable cfg : config.
Variable env : environment.

(** Whether the [c]-th uniform value sends the ball to the right. *)
Definition drawn_right (c : nat) : bool :=
  if Qlt_le_dec (uniform env c) (P cfg) then true else false.

(** The command of the actuator [id], processed as the [row_count]-th of
    its cycle on the [c]-th uniform value. *)
Definition move_command (c : nat) (row_count : Z) (id : string) : event :=
  let right := drawn_right c in
  let parity := (parity_start_of (role_of cfg) + row_count) mod 2 in
  EvRunToPosition id
    (if move_right right parity
     then (get_position env id + MOTOR_OPENING_DEGREES cfg) mod 360
     else (get_position env id - MOTOR_OPENING_DEGREES cfg) mod 360)
    "shortest path" (MOTOR_SPEED cfg).

Definition reset_command (id : string) : event :=
  EvRunToPosition id (get_position env id) "shortest path" (MOTOR_SPEED cfg).

(** The commands of the cycle that starts on the [c]-th uniform value. *)
Definition move_commands (c : nat) : list event :=
  imap (fun j id => move_command (c + j) (Z.of_nat j + 1) id) (motor_order cfg).

Definition cycle_events (c : nat) : list event :=
  move_commands c ++ [EvWaitForSeconds 5] ++ (reset_command <$> motor_order cfg).

Fixpoint cycles (c k : nat) : list (list event) :=
  match k with
  | O => []
  | S k' => cycle_events c :: cycles (length (motor_order cfg) + c) k'
  end.

(** The positions as the startup loop records them. *)
Definition captured : gmap string Z :=
  foldl (fun d id => <[id := get_position env id]> d) ∅ (motor_order cfg).

Definition recorded (s : state) : Prop :=
  forall id, id ∈ motor_order cfg ->
             initial_positions s !! id = Some (get_position env id).

(** What the hub does before the first cycle. *)
Definition sync_event : event :=
  if String.eqb (MODE cfg) "top" then EvRunForRotations "A" 1 else EvWaitUntilPressed.

Definition physical_prefix : list event :=
  EvShowImage "HEART" :: (EvGetPosition <$> motor_order cfg)
    ++ [EvPrintPositions captured; sync_event].

(** Whether the loop is ever reached: the top hub does not wait. *)
Definition triggered : bool :=
  String.eqb (MODE cfg) "top" || left_button_pressed env.

End PhysicalTerms.

(** Whether an event is a command to a motor of the board. *)
Definition is_command (ev : event) : bool :=
  match ev with EvRunToPosition _ _ _ _ => true | _ => false end.

(** A cycle: one command per actuator in the order of the list, each
    satisfying [Q], the settle wait, and one reset per actuator. *)
Definition cycle_shape cfg env (Q : string -> event -> Prop) (cyc : list event) : Prop :=
  exists moves,
    cyc = moves ++ [EvWaitForSeconds 5] ++ (reset_command cfg env <$> motor_order cfg) /\
    Forall2 Q (motor_order cfg) moves.

(** A computation that leaves [initial_positions] as it finds it, however
    it ends. *)
Definition keeps_positions {A} (m : M A) : Prop :=
  forall s, initial_positions (final_state (m s)) = initial_positions s.

(** The claim on the targets, of one event: a command's target is in
    [[0,360)] and is [MOTOR_OPENING_DEGREES] away from the position the
    actuator had at startup, one way or the other round the circle. *)
Definition target_by_opening cfg env (ev : event) : Prop :=
  match ev with
  | EvRunToPosition id pos _ _ =>
      0 <= pos < 360 /\
      ((pos - get_position env id) mod 360 = MOTOR_OPENING_DEGREES cfg mod 360 \/
       (get_position env id - pos) mod 360 = MOTOR_OPENING_DEGREES cfg mod 360)
  | _ => True
  end.

(** A command of the move phase for the actuator [id]. *)
Definition opened_by cfg env (id : string) (ev : event) : Prop :=
  exists pos,
    ev = EvRunToPosition id pos "shortest path" (MOTOR_SPEED cfg) /\
    0 <= pos < 360 /\
    ((pos - get_position env id) mod 360 = MOTOR_OPENING_DEGREES cfg mod 360 \/
     (get_position env id - pos) mod 360 = MOTOR_OPENING_DEGREES cfg mod 360).

(** A command to the actuator [id], at the configured speed and by the
    shortest path. *)
Definition commands (cfg : config) (id : string) (ev : event) : Prop :=
  exists pos, ev = EvRunToPosition id pos "shortest path" (MOTOR_SPEED cfg).

(** An event that is not a read of a motor's position. *)
Definition not_a_read (ev : event) : Prop := forall id, ev <> EvGetPosition id.

(** A command whose target is computed from the position that the
    dictionary [d] holds for its actuator. *)
Definition from_recorded (cfg : config) (d : gmap string Z) (ev : event) : Prop :=
  match ev with
  | EvRunToPosition id pos _ _ =>
      exists p, d !! id = Some p /\
                (pos = (p + MOTOR_OPENING_DEGREES cfg) mod 360 \/
                 pos = (p - MOTOR_OPENING_DEGREES cfg) mod 360 \/
                 pos = p)
  | _ => True
  end.

(** How many of the next [balls] balls, the first of them dropped on the
    [c]-th uniform value, go right exactly [j] times on the [N] levels. *)
Fixpoint landed (cfg : config) (env : environment) (c balls : nat) (j : Z) : Z :=
  match balls with
  | O => 0
  | S balls' =>
      (if decide (rights cfg env c (Z.to_nat (N cfg)) = j) then 1 else 0)
      + landed cfg env (Z.to_nat (N cfg) + c) balls' j
  end.

Definition with_B_SIM (cfg : config) (b : Z) : config := {|
  MODE := MODE cfg; P := P cfg; N := N cfg; B := B cfg; B_SIM := b;
  MOTOR_SPEED := MOTOR_SPEED cfg;
  MOTOR_OPENING_DEGREES := MOTOR_OPENING_DEGREES cfg;
  TOP_MOTOR_ORDER := TOP_MOTOR_ORDER cfg; BOT_MOTOR_ORDER := BOT_MOTOR_ORDER cfg;
  n_sim := n_sim cfg
|}.

(** The counts that [k] successive trials, the first of them started on
    the [c]-th uniform value, give to bin [j], in the order of the trials. *)
Fixpoint trial_counts (cfg : config) (env : environment) (c k : nat) (j : Z) : list Z :=
  match k with
  | O => []
  | S k' =>
      landed cfg env c (Z.to_nat (B_SIM cfg)) j
      :: trial_counts cfg env (Z.to_nat (B_SIM cfg) * Z.to_nat (N cfg) + c) k' j
  end.

(** The report line of bin [bin] for the non-empty list of counts [lst]:
    the label, the bin, the mean of the counts as the device rounds it to
    one decimal, their maximum and their minimum. *)
Definition stats_line (cfg : config) (env : environment) (bin : Z) (lst : list Z)
  : event :=
  EvPrintBin (pos_label cfg bin) bin
    (round1 env (inject_Z (py_sum lst) / inject_Z (Z.of_nat (length lst)))%Q)
    (foldl Z.max (hd 0 lst) (tl lst))
    (foldl Z.min (hd 0 lst) (tl lst)).


(** The maximum and the minimum a report line shows, and the sum of a
    column of a report. *)
Definition line_max (ev : event) : Z :=
  match ev with EvPrintBin _ _ _ maxval _ => maxval | _ => 0 end.

Definition line_min (ev : event) : Z :=
  match ev with EvPrintBin _ _ _ _ minval => minval | _ => 0 end.

Definition column_total (column : event -> Z) (evs : list event) : Z :=
  foldr (fun ev acc => column ev + acc) 0 evs.

(** The sum of [f j] over the [j] of a list. *)
Definition sum_over (f : Z -> Z) (l : list Z) : Z :=
  foldr (fun j acc => f j + acc) 0 l.

(** A computation that, however it ends, adds to the trace only events
    that satisfy [Q]. *)
Definition emits_only {A} (Q : event -> Prop) (m : M A) : Prop :=
  forall s, exists evs,
    trace (final_state (m s)) = trace s ++ evs /\ Forall Q evs.

(** The events of the report: the header and the lines of the bins. *)
Definition is_report (ev : event) : Prop :=
  match ev with
  | EvPrintHeader _ | EvPrintBin _ _ _ _ _ => True
  | _ => False
  end.

Definition with_B (cfg : config) (b : Z) : config := {|
  MODE := MODE cfg; P := P cfg; N := N cfg; B := b; B_SIM := B_SIM cfg;
  MOTOR_SPEED := MOTOR_SPEED cfg;
  MOTOR_OPENING_DEGREES := MOTOR_OPENING_DEGREES cfg;
  TOP_MOTOR_ORDER := TOP_MOTOR_ORDER cfg; BOT_MOTOR_ORDER := BOT_MOTOR_ORDER cfg;
  n_sim := n_sim cfg
|}.

Definition with_motor_orders (cfg : config) (top bot : list string) : config := {|
  MODE := MODE cfg; P := P cfg; N := N cfg; B := B cfg; B_SIM := B_SIM cfg;
  MOTOR_SPEED := MOTOR_SPEED cfg;
  MOTOR_OPENING_DEGREES := MOTOR_OPENING_DEGREES cfg;
  TOP_MOTOR_ORDER := top; BOT_MOTOR_ORDER := bot;
  n_sim := n_sim cfg
|}.

(** An event that is neither the wait for the button nor a run of the
    ball pump. *)
Definition not_a_sync (ev : event) : Prop :=
  ev <> EvWaitUntilPressed /\ forall port n, ev <> EvRunForRotations port n.

(** The target of the last command that the events [evs] send to the motor
    on [port], if they send it any. *)
Definition last_target (port : string) (evs : list event) : option Z :=
  foldl (fun acc ev =>
           match ev with
           | EvRunToPosition port' pos _ _ =>
               if String.eqb port' port then Some pos else acc
           | _ => acc
           end) None evs.

(** Three trials of one ball on two levels: the ball lands in bin 0, then
    in bin 1, then in bin 2. *)
Definition thirds_config : config := {|
  MODE := "sim"; P := (1 # 2)%Q; N := 2; B := 1; B_SIM := 1;
  MOTOR_SPEED := 10; MOTOR_OPENING_DEGREES := 30;
  TOP_MOTOR_ORDER := ["C"; "E"; "B"; "D"; "F"];
  BOT_MOTOR_ORDER := ["A"; "C"; "E"; "B"; "D"];
  n_sim := 3
|}.

Definition thirds_env : environment := {|
  uniform := fun i => if (i <? 2)%nat then (9 # 10)%Q
                      else if (i =? 3)%nat then (9 # 10)%Q
                      else (1 # 10)%Q;
  get_position := fun _ => 0;
  left_button_pressed := true;
  round1 := nearest_tenth;
  round1_between := nearest_tenth_between
|}.

(** * Properties of the embedding *)

(** ** The monad and the Python primitives *)

Lemma bind_Ok {A C} (m : M A) (k : A -> M C) s a s' :
  m s = Ok a s' -> bind m k s = k a s'.
Proof. intros E. unfold bind. now rewrite E. Qed.

Lemma bind_ext {A C} (m1 m2 : M A) (k1 k2 : A -> M C) s :
  m1 s = m2 s ->
  (forall a s', m1 s = Ok a s' -> k1 a s' = k2 a s') ->
  bind m1 k1 s = bind m2 k2 s.
Proof.
  intros Em Ek. unfold bind. rewrite <- Em.
  destruct (m1 s); auto.
Qed.

Lemma elem_of_range (n j : Z) : j ∈ range n <-> 0 <= j < n.
Proof.
  unfold range. rewrite list_elem_of_fmap. split.
  - intros (i & -> & Hi). apply elem_of_seq in Hi. lia.
  - intros Hj. exists (Z.to_nat j). split; [lia|]. apply elem_of_seq. lia.
Qed.

Lemma length_range (n : Z) : length (range n) = Z.to_nat n.
Proof. unfold range. now rewrite length_fmap, length_seq. Qed.

Lemma range_nonpos (n : Z) : n <= 0 -> range n = [].
Proof. intros Hn. unfold range. now replace (Z.to_nat n) with O by lia. Qed.

(** A dictionary filled over a list of keys. *)
Lemma lookup_foldl_insert `{Countable K} {V} (f : K -> V) (l : list K) (d : gmap K V) (j : K) :
  foldl (fun d k => <[k := f k]> d) d l !! j
  = if decide (j ∈ l) then Some (f j) else d !! j.
Proof.
  revert d. induction l as [|k l IH]; intros d; cbn [foldl].
  - destruct (decide (j ∈ [])) as [Hj|]; [|done]. by apply elem_of_nil in Hj.
  - rewrite IH.
    destruct (decide (j ∈ l)) as [Hl|Hl], (decide (j ∈ k :: l)) as [Hkl|Hkl];
      try done; rewrite elem_of_cons in Hkl.
    + tauto.
    + destruct Hkl as [->|]; [apply lookup_insert_eq|done].
    + apply lookup_insert_ne. intros ->. tauto.
Qed.

Lemma sum_values_insert_fresh (d : gmap Z Z) k v :
  d !! k = None -> sum_values (<[k := v]> d) = v + sum_values d.
Proof.
  intros Hk. unfold sum_values. rewrite map_fold_insert_L; [done| |done].
  intros. lia.
Qed.

Lemma sum_values_delete (d : gmap Z Z) k v :
  d !! k = Some v -> sum_values d = v + sum_values (delete k d).
Proof.
  intros Hk. unfold sum_values.
  rewrite (map_fold_delete_L _ _ k v d); [done| |done]. intros. lia.
Qed.

Lemma sum_values_insert_add (d : gmap Z Z) k v n :
  d !! k = Some v -> sum_values (<[k := v + n]> d) = sum_values d + n.
Proof.
  intros Hk. rewrite <- insert_delete_eq.
  rewrite sum_values_insert_fresh by apply lookup_delete_eq.
  rewrite (sum_values_delete d k v Hk). lia.
Qed.

Lemma sum_values_zero (d : gmap Z Z) :
  (forall j v, d !! j = Some v -> v = 0) -> sum_values d = 0.
Proof.
  induction d as [|k v d Hk IH] using map_ind; intros Hz.
  - apply map_fold_empty.
  - rewrite sum_values_insert_fresh by done.
    rewrite (Hz k v) by apply lookup_insert_eq. rewrite IH; [done|].
    intros j w Hj. apply (Hz j w). rewrite lookup_insert_ne; [done|]. congruence.
Qed.

(** ** One simulation trial *)

Lemma advance_0 s : advance 0 s = s.
Proof. now destruct s. Qed.

Lemma advance_advance n m s : advance n (advance m s) = advance (m + n) s.
Proof. unfold advance. simpl. f_equal. lia. Qed.

Section Simulation.

Variable cfg : config.
Variable env : environment.

Lemma bern_eq s : bern cfg env s = Ok (bern_value cfg env (cursor s)) (advance 1 s).
Proof. unfold bern, bern_value, advance. simpl. now destruct Qlt_le_dec. Qed.

Lemma rights_bounds c n : 0 <= rights cfg env c n <= Z.of_nat n.
Proof.
  revert c. induction n as [|n IH]; intros c; simpl rights; [lia|].
  specialize (IH (S c)). unfold bern_value. destruct Qlt_le_dec; lia.
Qed.

(** The [for level in range(N)] loop adds up [N] draws. *)
Lemma landing_bin_loop {A} (l : list A) (acc : Z) s :
  for_in l (fun _ landing_bin => r <- bern cfg env ;; ret (landing_bin + r)) acc s
  = Ok (acc + rights cfg env (cursor s) (length l)) (advance (length l) s).
Proof.
  revert acc s. induction l as [|x l IH]; intros acc s; simpl.
  - unfold ret. now rewrite Z.add_0_r, advance_0.
  - erewrite bind_Ok by (erewrite bind_Ok by apply bern_eq; reflexivity).
    rewrite IH, advance_advance. simpl. f_equal. lia.
Qed.

Lemma run_one_simulation_unfold :
  run_one_simulation cfg env
  = for_in (range (B_SIM cfg)) (fun _ d => drop_ball cfg env d)
      (foldl (fun d bin => <[bin := 0]> d) ∅ (range (N cfg + 1))).
Proof. reflexivity. Qed.

Lemma drop_ball_eq d s v :
  d !! rights cfg env (cursor s) (Z.to_nat (N cfg)) = Some v ->
  drop_ball cfg env d s
  = Ok (<[rights cfg env (cursor s) (Z.to_nat (N cfg)) := v + 1]> d)
       (advance (Z.to_nat (N cfg)) s).
Proof.
  intros Hv. unfold drop_ball.
  erewrite bind_Ok by apply landing_bin_loop.
  rewrite length_range, Z.add_0_l. unfold setitem_add, getitem.
  unfold bind. now rewrite Hv.
Qed.

Lemma empty_bins_lookup j :
  foldl (fun d bin => <[bin := 0]> d) (∅ : gmap Z Z) (range (N cfg + 1)) !! j
  = if decide (0 <= j <= N cfg) then Some 0 else None.
Proof.
  rewrite (lookup_foldl_insert (fun _ => 0)), lookup_empty.
  destruct (decide (j ∈ range (N cfg + 1))) as [Hj|Hj], (decide (0 <= j <= N cfg));
    try done; rewrite elem_of_range in Hj; lia.
Qed.

Lemma empty_bins_ok :
  bins_ok cfg (foldl (fun d bin => <[bin := 0]> d) ∅ (range (N cfg + 1))) 0.
Proof.
  split; [|split].
  - intros j. rewrite empty_bins_lookup.
    destruct (decide (0 <= j <= N cfg)); split; eauto; try lia.
    intros [? ?]; done.
  - intros j v. rewrite empty_bins_lookup. case_decide; [|done].
    intros [= <-]. lia.
  - apply sum_values_zero. intros j v. rewrite empty_bins_lookup.
    case_decide; [|done]. congruence.
Qed.

Lemma drop_ball_ok d k s :
  0 <= N cfg ->
  bins_ok cfg d k ->
  exists d', drop_ball cfg env d s = Ok d' (advance (Z.to_nat (N cfg)) s) /\ bins_ok cfg d' (k + 1).
Proof.
  intros HN (Hkeys & Hpos & Hsum).
  pose proof (rights_bounds (cursor s) (Z.to_nat (N cfg))) as Hb.
  set (b := rights cfg env (cursor s) (Z.to_nat (N cfg))) in *.
  assert (is_Some (d !! b)) as [v Hv] by (apply Hkeys; lia).
  exists (<[b := v + 1]> d). split; [now apply drop_ball_eq|].
  split; [|split].
  - intros j. destruct (decide (j = b)) as [->|Hne].
    + rewrite lookup_insert_eq. split; [intros _; lia|eauto].
    + rewrite lookup_insert_ne by done. apply Hkeys.
  - intros j w. destruct (decide (j = b)) as [->|Hne].
    + rewrite lookup_insert_eq. intros [= <-]. specialize (Hpos _ _ Hv). lia.
    + rewrite lookup_insert_ne by done. apply Hpos.
  - rewrite (sum_values_insert_add d b v 1 Hv). lia.
Qed.

Lemma trial_loop_ok {A} (l : list A) d k s :
  0 <= N cfg ->
  bins_ok cfg d k ->
  exists d',
    for_in l (fun _ d => drop_ball cfg env d) d s
    = Ok d' (advance (length l * Z.to_nat (N cfg)) s)
    /\ bins_ok cfg d' (k + Z.of_nat (length l)).
Proof.
  intros HN. revert d k s. induction l as [|x l IH]; intros d k s Hd.
  - exists d. simpl. rewrite advance_0, Z.add_0_r. now split.
  - destruct (drop_ball_ok d k s HN Hd) as (d1 & E1 & Hd1).
    destruct (IH d1 (k + 1) (advance (Z.to_nat (N cfg)) s) Hd1) as (d2 & E2 & Hd2).
    exists d2. split.
    + cbn [for_in]. erewrite bind_Ok by exact E1.
      now rewrite E2, advance_advance.
    + replace (k + Z.of_nat (length (x :: l))) with (k + 1 + Z.of_nat (length l))
        by (simpl length; lia).
      exact Hd2.
Qed.

(** The trial when every ball lands in the same bin [k]. *)
Lemma trial_loop_one_bin {A} (l : list A) d s k v :
  (forall c, rights cfg env c (Z.to_nat (N cfg)) = k) ->
  d !! k = Some v ->
  for_in l (fun _ d => drop_ball cfg env d) d s
  = Ok (<[k := v + Z.of_nat (length l)]> d)
       (advance (length l * Z.to_nat (N cfg)) s).
Proof.
  intros Hall. revert d s v. induction l as [|x l IH]; intros d s v Hv.
  - simpl. rewrite Z.add_0_r, advance_0, insert_id by done. reflexivity.
  - cbn [for_in]. erewrite bind_Ok
      by (apply (drop_ball_eq d s v); now rewrite Hall).
    rewrite Hall, (IH _ _ (v + 1)) by apply lookup_insert_eq.
    rewrite insert_insert_eq, advance_advance. do 2 f_equal.
    simpl length. lia.
Qed.

Lemma rights_all_zero c n : (forall i, bern_value cfg env i = 0) -> rights cfg env c n = 0.
Proof.
  intros H0. revert c. induction n as [|n IH]; intros c; simpl; [done|].
  rewrite H0, IH. reflexivity.
Qed.

Lemma rights_all_one c n : (forall i, bern_value cfg env i = 1) -> rights cfg env c n = Z.of_nat n.
Proof.
  intros H1. revert c. induction n as [|n IH]; intros c; [done|].
  cbn [rights]. rewrite H1, IH. lia.
Qed.

Lemma run_one_simulation_one_bin s k :
  0 <= B_SIM cfg -> 0 <= k <= N cfg ->
  (forall c, rights cfg env c (Z.to_nat (N cfg)) = k) ->
  exists d s',
    run_one_simulation cfg env s = Ok d s' /\
    all_in_bin (N cfg) (B_SIM cfg) k d.
Proof.
  intros HB Hk Hall. rewrite run_one_simulation_unfold.
  erewrite (trial_loop_one_bin _ _ s k 0 Hall).
  2:{ rewrite empty_bins_lookup. now rewrite decide_True by lia. }
  eexists _, _. split; [reflexivity|]. intros j.
  rewrite length_range, Z.add_0_l, Z2Nat.id by lia.
  destruct (decide (j = k)) as [->|Hne].
  - rewrite lookup_insert_eq. rewrite decide_True by lia. reflexivity.
  - rewrite lookup_insert_ne by done. apply empty_bins_lookup.
Qed.

End Simulation.

(** C1.  For [N >= 0] levels and [B_SIM > 0] balls, and whatever [P] and
    the uniform source are, [run_one_simulation()] returns a dictionary
    whose keys are exactly the bins [0..N], whose counts are not negative
    and whose counts add up to [B_SIM]. *)
Theorem run_one_simulation_counts_every_ball cfg env s :
  0 <= N cfg -> 0 < B_SIM cfg ->
  exists d s',
    run_one_simulation cfg env s = Ok d s' /\
    (forall j, 0 <= j <= N cfg -> exists c, d !! j = Some c /\ 0 <= c) /\
    (forall j, ~ 0 <= j <= N cfg -> d !! j = None) /\
    sum_values d = B_SIM cfg.
Proof.
  intros HN HB. rewrite run_one_simulation_unfold.
  destruct (trial_loop_ok cfg env (range (B_SIM cfg)) _ 0 s HN (empty_bins_ok cfg))
    as (d & E & Hkeys & Hpos & Hsum).
  exists d, (advance (length (range (B_SIM cfg)) * Z.to_nat (N cfg)) s).
  split; [exact E|]. split; [|split].
  - intros j Hj. destruct (proj2 (Hkeys j) Hj) as [c Hc]. exists c. eauto.
  - intros j Hj. destruct (d !! j) eqn:Ej; [|done].
    exfalso. apply Hj, Hkeys. eauto.
  - rewrite Hsum, length_range. lia.
Qed.

Lemma run_one_simulation_counts_every_ball_witness :
  exists d s',
    run_one_simulation source_config example_env start = Ok d s' /\
    (forall j, 0 <= j <= 10 -> exists c, d !! j = Some c /\ 0 <= c) /\
    (forall j, ~ 0 <= j <= 10 -> d !! j = None) /\
    sum_values d = 100.
Proof.
  apply (run_one_simulation_counts_every_ball source_config example_env start);
    simpl; lia.
Defined.

Lemma bern_value_P0 cfg env i :
  unit_interval env -> bern_value (with_P cfg 0%Q) env i = 0.
Proof.
  intros Hu. unfold bern_value. simpl. destruct Qlt_le_dec as [Hlt|]; [|done].
  exfalso. apply (Qlt_not_le _ _ Hlt), Hu.
Qed.

Lemma bern_value_P1 cfg env i :
  unit_interval env -> bern_value (with_P cfg 1%Q) env i = 1.
Proof.
  intros Hu. unfold bern_value. simpl. destruct Qlt_le_dec as [|Hle]; [done|].
  exfalso. apply (Qlt_not_le _ _ (proj2 (Hu i)) Hle).
Qed.

(** C2.  The degenerate trials are exact.  With [P = 0.0] every ball is in
    bin 0, and with [P = 1.0] every ball is in bin [N], the uniform source
    drawing from [[0,1)]; with [N = 0] every ball is in bin 0, whatever [P]
    and the source are. *)
Theorem run_one_simulation_degenerate cfg env s :
  0 <= N cfg -> 0 < B_SIM cfg -> unit_interval env ->
  (exists d s', run_one_simulation (with_P cfg 0%Q) env s = Ok d s' /\
                all_in_bin (N cfg) (B_SIM cfg) 0 d) /\
  (exists d s', run_one_simulation (with_P cfg 1%Q) env s = Ok d s' /\
                all_in_bin (N cfg) (B_SIM cfg) (N cfg) d) /\
  (forall env', exists s',
      run_one_simulation (with_N cfg 0) env' s = Ok {[0 := B_SIM cfg]} s').
Proof.
  intros HN HB Hu. split; [|split].
  - apply (run_one_simulation_one_bin (with_P cfg 0%Q) env s 0); simpl; try lia.
    intros c. apply rights_all_zero. intros i. now apply bern_value_P0.
  - apply (run_one_simulation_one_bin (with_P cfg 1%Q) env s (N cfg)); simpl; try lia.
    intros c. rewrite rights_all_one by (intros i; now apply bern_value_P1). lia.
  - intros env'.
    destruct (run_one_simulation_one_bin (with_N cfg 0) env' s 0)
      as (d & s' & E & Hd); [simpl; lia|simpl; lia|reflexivity|].
    exists s'. rewrite E. f_equal. apply map_eq. intros j.
    rewrite (Hd j). simpl. destruct (decide (j = 0)) as [->|Hne].
    + now rewrite lookup_singleton_eq.
    + rewrite lookup_singleton_ne by done.
      destruct (decide (0 <= j <= 0)); [lia|done].
Qed.

Lemma example_env_unit_interval : unit_interval example_env.
Proof.
  intros i. simpl. unfold Qle, Qlt. simpl.
  pose proof (Nat.mod_upper_bound i 10). lia.
Qed.

Lemma run_one_simulation_degenerate_witness :
  (exists d s', run_one_simulation (with_P source_config 0%Q) example_env start
                = Ok d s' /\ all_in_bin 10 100 0 d) /\
  (exists d s', run_one_simulation (with_P source_config 1%Q) example_env start
                = Ok d s' /\ all_in_bin 10 100 10 d) /\
  (forall env', exists s',
      run_one_simulation (with_N source_config 0) env' start = Ok {[0 := 100]} s').
Proof.
  apply (run_one_simulation_degenerate source_config example_env start).
  - simpl; lia.
  - simpl; lia.
  - exact example_env_unit_interval.
Defined.

(** ** The trial depends on the uniform values only *)

Section Determinism.

Variable cfg : config.
Variables env1 env2 : environment.

Lemma bern_value_ext i :
  (uniform env1 i == uniform env2 i)%Q ->
  bern_value cfg env1 i = bern_value cfg env2 i.
Proof.
  intros E. unfold bern_value.
  destruct (Qlt_le_dec (uniform env1 i) (P cfg)) as [H1|H1],
           (Qlt_le_dec (uniform env2 i) (P cfg)) as [H2|H2]; try reflexivity;
    exfalso; rewrite E in H1; exact (Qlt_not_le _ _ ltac:(eassumption) ltac:(eassumption)).
Qed.

Lemma rights_ext c n :
  (forall i, (c <= i < c + n)%nat -> (uniform env1 i == uniform env2 i)%Q) ->
  rights cfg env1 c n = rights cfg env2 c n.
Proof.
  revert c. induction n as [|n IH]; intros c Hu; [reflexivity|].
  cbn [rights]. rewrite (bern_value_ext c) by (apply Hu; lia).
  rewrite (IH (S c)); [reflexivity|]. intros i Hi. apply Hu. lia.
Qed.

Lemma drop_ball_unfold env d s :
  drop_ball cfg env d s
  = setitem_add d (rights cfg env (cursor s) (Z.to_nat (N cfg))) 1
      (advance (Z.to_nat (N cfg)) s).
Proof.
  unfold drop_ball. erewrite bind_Ok by apply landing_bin_loop.
  now rewrite length_range, Z.add_0_l.
Qed.

Lemma trial_loop_ext {A} (l : list A) d s :
  (forall i, (cursor s <= i < cursor s + length l * Z.to_nat (N cfg))%nat ->
             (uniform env1 i == uniform env2 i)%Q) ->
  for_in l (fun _ d => drop_ball cfg env1 d) d s
  = for_in l (fun _ d => drop_ball cfg env2 d) d s.
Proof.
  revert d s. induction l as [|x l IH]; intros d s Hu; [reflexivity|].
  cbn [for_in]. apply bind_ext.
  - rewrite !drop_ball_unfold.
    now rewrite (rights_ext (cursor s)) by (intros i Hi; apply Hu; simpl; lia).
  - intros d' s' E. rewrite drop_ball_unfold in E.
    assert (s' = advance (Z.to_nat (N cfg)) s) as ->.
    { unfold setitem_add, bind, getitem, ret, raise in E.
      destruct (d !! _); congruence. }
    apply IH. intros i Hi. apply Hu. simpl in *. lia.
Qed.

End Determinism.

(** C10.  Two runs of [run_one_simulation()] with the same constants, from
    the same state, whose uniform sources yield the same values over the
    [N * B_SIM] draws of the trial, return the same dictionary (and the
    same state). *)
Theorem run_one_simulation_deterministic cfg env1 env2 s :
  (forall i,
      (cursor s <= i < cursor s + Z.to_nat (N cfg) * Z.to_nat (B_SIM cfg))%nat ->
      (uniform env1 i == uniform env2 i)%Q) ->
  run_one_simulation cfg env1 s = run_one_simulation cfg env2 s.
Proof.
  intros Hu. rewrite !run_one_simulation_unfold. apply trial_loop_ext.
  intros i Hi. apply Hu. rewrite length_range in Hi. lia.
Qed.

Lemma run_one_simulation_deterministic_witness :
  run_one_simulation source_config example_env start
  = run_one_simulation source_config example_env' start.
Proof.
  apply (run_one_simulation_deterministic source_config example_env example_env' start).
  intros i Hi. simpl in *. destruct (Nat.ltb_spec i 1000); [|lia].
  unfold Qeq. simpl. lia.
Defined.

(** ** The simulation report *)

Lemma emit_eq ev s : emit ev s = Ok tt (add_events [ev] s).
Proof. reflexivity. Qed.

Lemma add_events_nil s : add_events [] s = s.
Proof. destruct s. unfold add_events. simpl. now rewrite app_nil_r. Qed.

Lemma add_events_app evs1 evs2 s :
  add_events evs2 (add_events evs1 s) = add_events (evs1 ++ evs2) s.
Proof. unfold add_events. simpl. now rewrite app_assoc. Qed.

Lemma NoDup_range n : NoDup (range n).
Proof.
  unfold range. apply NoDup_fmap_2; [|apply NoDup_seq].
  intros x y Hxy. lia.
Qed.

Lemma range_succ n : 0 <= n -> range (n + 1) = 0 :: (Z.succ <$> range n).
Proof.
  intros Hn. unfold range.
  replace (Z.to_nat (n + 1)) with (S (Z.to_nat n)) by lia.
  cbn [seq fmap list_fmap]. f_equal. rewrite <- fmap_S_seq, <- !list_fmap_compose.
  apply list_fmap_ext. intros _ x _. simpl. lia.
Qed.

Lemma collect_loop (d : gmap Z Z) (l : list Z) (t : gmap Z (list Z)) s (f : Z -> nat) :
  NoDup l ->
  (forall j, j ∈ l -> is_Some (d !! j)) ->
  (forall j, j ∈ l -> exists lst, t !! j = Some lst /\ length lst = f j) ->
  exists t',
    for_in l (collect d) t s = Ok t' s /\
    (forall j, j ∈ l -> exists lst, t' !! j = Some lst /\ length lst = S (f j)) /\
    (forall j, j ∉ l -> t' !! j = t !! j).
Proof.
  revert t. induction l as [|x l IH]; intros t Hnd Hd Ht.
  - exists t. split; [reflexivity|]. split; [|done].
    intros j Hj. by apply elem_of_nil in Hj.
  - apply NoDup_cons in Hnd as [Hx Hnd].
    destruct (Hd x) as [c Hc]; [by left|].
    destruct (Ht x) as (lst & Hlst & Hlen); [by left|].
    destruct (IH (<[x := lst ++ [c]]> t)) as (t' & E & Hin & Hout); [done| | |].
    + intros j Hj. apply Hd. by right.
    + intros j Hj. rewrite lookup_insert_ne by (intros ->; done).
      apply Ht. by right.
    + exists t'. split; [|split].
      * cbn [for_in]. unfold bind at 1. unfold collect at 1.
        unfold bind, getitem, setitem_append, bind, getitem, ret.
        rewrite Hc, Hlst. exact E.
      * intros j Hj. apply elem_of_cons in Hj as [->|Hj]; [|by apply Hin].
        rewrite (Hout x Hx), lookup_insert_eq. exists (lst ++ [c]).
        split; [done|]. rewrite length_app. simpl. lia.
      * intros j Hj. apply not_elem_of_cons in Hj as [Hne Hj].
        rewrite (Hout j Hj). by rewrite lookup_insert_ne.
Qed.

Section Report.

Variable cfg : config.
Variable env : environment.
Hypothesis N_nonneg : 0 <= N cfg.

Lemma one_trial_ok t k s :
  trials_ok cfg t k ->
  exists t',
    one_trial cfg env t s
    = Ok t' (advance (Z.to_nat (B_SIM cfg) * Z.to_nat (N cfg)) s) /\
    trials_ok cfg t' (S k).
Proof.
  intros Ht. unfold one_trial.
  destruct (trial_loop_ok cfg env (range (B_SIM cfg)) _ 0 s N_nonneg (empty_bins_ok cfg))
    as (d & E & Hkeys & _ & _).
  rewrite <- run_one_simulation_unfold, length_range in E.
  erewrite bind_Ok by exact E.
  destruct (collect_loop d (range (N cfg + 1)) t
              (advance (Z.to_nat (B_SIM cfg) * Z.to_nat (N cfg)) s) (fun _ => k))
    as (t' & E' & Hin & _).
  - apply NoDup_range.
  - intros j Hj. apply Hkeys. apply elem_of_range in Hj. lia.
  - intros j Hj. apply Ht. apply elem_of_range in Hj. lia.
  - exists t'. split; [exact E'|].
    intros j Hj. apply Hin, elem_of_range. lia.
Qed.

Lemma trials_loop_ok {A} (l : list A) t k s :
  trials_ok cfg t k ->
  exists t',
    for_in l (fun _ t => one_trial cfg env t) t s
    = Ok t' (advance (length l * (Z.to_nat (B_SIM cfg) * Z.to_nat (N cfg))) s) /\
    trials_ok cfg t' (length l + k).
Proof.
  revert t k s. induction l as [|x l IH]; intros t k s Ht.
  - exists t. simpl. now rewrite advance_0.
  - destruct (one_trial_ok t k s Ht) as (t1 & E1 & Ht1).
    destruct (IH t1 (S k) (advance (Z.to_nat (B_SIM cfg) * Z.to_nat (N cfg)) s) Ht1)
      as (t2 & E2 & Ht2).
    exists t2. split.
    + cbn [for_in]. erewrite bind_Ok by exact E1.
      now rewrite E2, advance_advance.
    + replace (length (x :: l) + k)%nat with (length l + S k)%nat by (simpl; lia).
      exact Ht2.
Qed.

Lemma report_loop_ok t k (l : list Z) s :
  (0 < k)%nat ->
  (forall j, j ∈ l -> exists lst, t !! j = Some lst /\ length lst = k) ->
  exists lines,
    for_in l (report_bin cfg env t) tt s = Ok tt (add_events lines s) /\
    Forall2 (is_report_line cfg env k) l lines.
Proof.
  intros Hk. revert s. induction l as [|bin l IH]; intros s Ht.
  - exists []. simpl. rewrite add_events_nil. split; [reflexivity|constructor].
  - destruct (Ht bin) as (lst & Hlst & Hlen); [by left|].
    destruct lst as [|x lst]; [simpl in Hlen; lia|].
    set (ev := EvPrintBin (pos_label cfg bin) bin
                 (round1 env (Qmake (py_sum (x :: lst)) 1 / Qmake (Z.of_nat k) 1)%Q)
                 (foldl Z.max x lst) (foldl Z.min x lst)).
    destruct (IH (add_events [ev] s)) as (lines & E & Hlines).
    { intros j Hj. apply Ht. by right. }
    exists (ev :: lines). split.
    + cbn [for_in]. unfold bind at 1. unfold report_bin at 1.
      unfold bind, getitem, ret. rewrite Hlst, Hlen. unfold py_truediv.
      destruct (Z.eqb_spec (Z.of_nat k) 0) as [Hz|_]; [lia|].
      cbn [lift py_max py_min ret]. rewrite emit_eq. fold ev.
      rewrite E, add_events_app. reflexivity.
    + constructor; [|exact Hlines].
      exists (x :: lst), (Qmake (py_sum (x :: lst)) 1 / Qmake (Z.of_nat k) 1)%Q,
        (foldl Z.max x lst), (foldl Z.min x lst).
      repeat split; try done. unfold py_truediv.
      destruct (Z.eqb_spec (Z.of_nat k) 0) as [Hz|_]; [lia|reflexivity].
Qed.

End Report.

Lemma main_sim_unfold cfg env :
  main_sim cfg env
  = (trials <- for_in (range (n_sim cfg)) (fun _ t => one_trial cfg env t)
                 (foldl (fun d bin => <[bin := []]> d) ∅ (range (N cfg + 1))) ;;
     emit (EvPrintHeader (n_sim cfg)) ;;;
     for_in (range (N cfg + 1)) (report_bin cfg env trials) tt).
Proof. reflexivity. Qed.

Lemma empty_trials_lookup cfg j :
  foldl (fun d bin => <[bin := []]> d) (∅ : gmap Z (list Z)) (range (N cfg + 1)) !! j
  = if decide (0 <= j <= N cfg) then Some [] else None.
Proof.
  rewrite (lookup_foldl_insert (fun _ => [])), lookup_empty.
  destruct (decide (j ∈ range (N cfg + 1))) as [Hj|Hj], (decide (0 <= j <= N cfg));
    try done; rewrite elem_of_range in Hj; lia.
Qed.

(** With at least one trial the report is printed in full. *)
Lemma main_sim_ok cfg env s :
  0 <= N cfg -> 0 < n_sim cfg ->
  exists lines,
    main_sim cfg env s
    = Ok tt (add_events (EvPrintHeader (n_sim cfg) :: lines)
               (advance (Z.to_nat (n_sim cfg)
                         * (Z.to_nat (B_SIM cfg) * Z.to_nat (N cfg))) s)) /\
    Forall2 (is_report_line cfg env (Z.to_nat (n_sim cfg))) (range (N cfg + 1)) lines.
Proof.
  intros HN Hn. rewrite main_sim_unfold.
  destruct (trials_loop_ok cfg env HN (range (n_sim cfg))
              (foldl (fun d bin => <[bin := []]> d) ∅ (range (N cfg + 1))) 0 s)
    as (t & E & Ht).
  { intros j Hj. exists []. rewrite empty_trials_lookup.
    now rewrite decide_True by lia. }
  rewrite length_range, Nat.add_0_r in *.
  erewrite bind_Ok by exact E. erewrite bind_Ok by apply emit_eq.
  destruct (report_loop_ok cfg env t (Z.to_nat (n_sim cfg)) (range (N cfg + 1))
              (add_events [EvPrintHeader (n_sim cfg)]
                 (advance (Z.to_nat (n_sim cfg)
                           * (Z.to_nat (B_SIM cfg) * Z.to_nat (N cfg))) s)))
    as (lines & E' & Hlines); [lia| |].
  { intros j Hj. apply Ht. apply elem_of_range in Hj. lia. }
  exists lines. rewrite E', add_events_app. now split.
Qed.

(** Without a trial the mean of the first bin divides by zero. *)
Lemma main_sim_empty cfg env s :
  0 <= N cfg -> n_sim cfg <= 0 ->
  main_sim cfg env s
  = Raise ZeroDivisionError (add_events [EvPrintHeader (n_sim cfg)] s).
Proof.
  intros HN Hn. rewrite main_sim_unfold, (range_nonpos (n_sim cfg)) by done.
  cbn [for_in]. unfold bind at 1. unfold ret at 1.
  erewrite bind_Ok by apply emit_eq.
  rewrite (range_succ (N cfg)) at 1 by done. cbn [for_in].
  unfold bind at 1. unfold report_bin at 1. unfold bind at 1, getitem.
  rewrite empty_trials_lookup, decide_True by lia. reflexivity.
Qed.

(** C6, as the claim states it, fails: with [n_sim = 0] nothing rejects the
    empty lists of trials; the header is printed and the mean of bin 0
    raises [ZeroDivisionError], which nothing catches. *)
Lemma empty_trial_set_divides_by_zero :
  main (with_n_sim source_config 0) example_env start
  = Raise ZeroDivisionError
      {| cursor := 0; trace := [EvPrintHeader 0]; initial_positions := ∅ |}.
Proof. vm_compute. reflexivity. Qed.

(** C7, as the claim states it, fails: with [P = 2.0] the simulation runs to
    its end, drawing all its uniform values and printing its report. *)
Lemma invalid_probability_runs :
  ~ (0 <= P (with_P source_config 2%Q) <= 1)%Q /\
  exists s,
    main (with_P source_config 2%Q) example_env start = Ok tt s /\
    Z.of_nat (cursor s) = 10000 /\ length (trace s) = 12%nat.
Proof.
  split.
  - simpl. intros [_ H]. revert H. unfold Qle. simpl. lia.
  - eexists. split; [vm_compute; reflexivity|]. split; reflexivity.
Qed.

(** C7, amended.  [P] is never checked, at startup or by [bern()]: with a
    [P] outside [[0,1]] a simulation ([N >= 0], at least one trial) runs to
    its end, and [bern()], the uniform source drawing from [[0,1)], returns
    1 at every draw when [P > 1] and 0 at every draw when [P < 0]. *)
Theorem probability_never_checked cfg env :
  unit_interval env ->
  ~ (0 <= P cfg <= 1)%Q ->
  MODE cfg = "sim" -> 0 <= N cfg -> 0 < n_sim cfg ->
  (exists s', main cfg env start = Ok tt s') /\
  (forall s, bern cfg env s
             = Ok (if Qlt_le_dec 1 (P cfg) then 1 else 0) (advance 1 s)).
Proof.
  intros Hu HP Hmode HN Hn. split.
  - unfold main. rewrite Hmode. simpl.
    destruct (main_sim_ok cfg env start HN Hn) as (lines & E & _). eauto.
  - intros s. rewrite bern_eq. f_equal. unfold bern_value.
    destruct (Hu (cursor s)) as [H0 H1].
    destruct (Qlt_le_dec (uniform env (cursor s)) (P cfg)) as [Hlt|Hle],
             (Qlt_le_dec 1 (P cfg)) as [H1P|HP1]; try reflexivity; exfalso.
    + apply HP. split; [|exact HP1].
      apply Qlt_le_weak. eapply Qle_lt_trans; eassumption.
    + apply (Qlt_not_le _ _ H1P). apply Qlt_le_weak.
      eapply Qle_lt_trans; eassumption.
Qed.

Lemma probability_never_checked_witness :
  (exists s', main (with_P source_config 2%Q) example_env start = Ok tt s') /\
  (forall s, bern (with_P source_config 2%Q) example_env s = Ok 1 (advance 1 s)).
Proof.
  apply (probability_never_checked (with_P source_config 2%Q) example_env).
  - exact example_env_unit_interval.
  - simpl. intros [_ H]. revert H. unfold Qle. simpl. lia.
  - reflexivity.
  - simpl; lia.
  - simpl; lia.
Defined.

(** ** The physical board *)

Lemma advance_add_events n evs s :
  advance n (add_events evs s) = add_events evs (advance n s).
Proof. reflexivity. Qed.

Lemma while_loop_eq cfg env ball_count s :
  while_loop cfg env ball_count s
  = if Z_lt_dec ball_count (B cfg)
    then match cycle cfg env s with
         | Ok _ s' => while_loop cfg env (ball_count + 1) s'
         | Raise e s' => Raise e s'
         | Hang s' => Hang s'
         end
    else Ok tt s.
Proof.
  simp while_loop. destruct (Z_lt_dec ball_count (B cfg)); simpl.
  - destruct (cycle cfg env s); reflexivity.
  - reflexivity.
Qed.

Section Physical.

Variable cfg : config.
Variable env : environment.

Lemma parity_start_role : parity_start cfg = parity_start_of (role_of cfg).
Proof. unfold parity_start, role_of. now destruct String.eqb. Qed.

Lemma move_motor_eq id row_count s :
  initial_positions s !! id = Some (get_position env id) ->
  move_motor cfg env id row_count s
  = Ok (row_count + 1)
       (add_events [move_command cfg env (cursor s) (row_count + 1) id] (advance 1 s)).
Proof.
  intros Hid. unfold move_motor. erewrite bind_Ok by apply bern_eq.
  rewrite parity_start_role. unfold move_command, drawn_right, bern_value.
  set (parity := (parity_start_of (role_of cfg) + (row_count + 1)) mod 2).
  assert (parity = 0 \/ parity = 1) as Hpar
    by (pose proof (Z.mod_pos_bound (parity_start_of (role_of cfg) + (row_count + 1)) 2);
        lia).
  unfold recorded_position, run_to_position, bind, getitem, ret, emit, truthy,
    move_right.
  destruct (Qlt_le_dec (uniform env (cursor s)) (P cfg)), Hpar as [-> | ->];
    simpl; rewrite Hid; reflexivity.
Qed.

Lemma move_loop (l : list string) row_count s :
  (forall id, id ∈ l -> initial_positions s !! id = Some (get_position env id)) ->
  for_in l (move_motor cfg env) row_count s
  = Ok (row_count + Z.of_nat (length l))
       (add_events
          (imap (fun j id => move_command cfg env (cursor s + j)
                               (row_count + Z.of_nat j + 1) id) l)
          (advance (length l) s)).
Proof.
  revert row_count s. induction l as [|id l IH]; intros row_count s Hl.
  - simpl. now rewrite Z.add_0_r, add_events_nil, advance_0.
  - cbn [for_in]. erewrite bind_Ok by (apply move_motor_eq, Hl; by left).
    rewrite IH by (intros id' Hid'; apply Hl; by right).
    rewrite advance_add_events, add_events_app, advance_advance.
    f_equal; [simpl length; lia|]. f_equal. cbn [imap app].
    rewrite Nat.add_0_r, Z.add_0_r. f_equal.
    apply imap_ext. intros j x _. simpl. f_equal; lia.
Qed.

Lemma reset_loop (l : list string) s :
  (forall id, id ∈ l -> initial_positions s !! id = Some (get_position env id)) ->
  for_in l (reset_motor cfg) tt s = Ok tt (add_events (reset_command cfg env <$> l) s).
Proof.
  revert s. induction l as [|id l IH]; intros s Hl.
  - simpl. now rewrite add_events_nil.
  - cbn [for_in]. unfold bind at 1. unfold reset_motor at 1.
    unfold recorded_position, run_to_position, bind, getitem, ret.
    rewrite (Hl id) by (by left). rewrite emit_eq, IH, add_events_app.
    + reflexivity.
    + intros id' Hid'. apply (Hl id'). by right.
Qed.

Lemma cycle_eq s :
  recorded cfg env s ->
  cycle cfg env s
  = Ok tt (add_events (cycle_events cfg env (cursor s))
             (advance (length (motor_order cfg)) s)).
Proof.
  intros Hs. unfold cycle. erewrite bind_Ok by (apply move_loop, Hs).
  erewrite bind_Ok by apply emit_eq.
  rewrite reset_loop by (intros id Hid; apply Hs, Hid).
  rewrite !add_events_app. reflexivity.
Qed.

Lemma while_loop_cycles k : forall ball_count s,
  Z.to_nat (B cfg - ball_count) = k ->
  recorded cfg env s ->
  while_loop cfg env ball_count s
  = Ok tt (add_events (concat (cycles cfg env (cursor s) k))
             (advance (k * length (motor_order cfg)) s)).
Proof.
  induction k as [|k IH]; intros ball_count s Hk Hs; rewrite while_loop_eq.
  - destruct Z_lt_dec; [lia|]. simpl. now rewrite add_events_nil, advance_0.
  - destruct Z_lt_dec; [|lia]. rewrite (cycle_eq s Hs).
    rewrite (IH (ball_count + 1)); [|lia|exact Hs].
    rewrite advance_add_events, add_events_app, advance_advance. reflexivity.
Qed.

Lemma capture_loop (l : list string) s :
  for_in l (fun motor_id _ => record_position env motor_id) tt s
  = Ok tt (add_events (EvGetPosition <$> l)
             (set_positions
                (foldl (fun d id => <[id := get_position env id]> d)
                   (initial_positions s) l) s)).
Proof.
  revert s. induction l as [|id l IH]; intros s.
  - destruct s. unfold add_events, set_positions. simpl. now rewrite app_nil_r.
  - cbn [for_in]. unfold bind at 1. unfold record_position at 1.
    rewrite IH. unfold add_events, set_positions. simpl.
    now rewrite <- app_assoc.
Qed.

Lemma captured_lookup id :
  captured cfg env !! id
  = if decide (id ∈ motor_order cfg) then Some (get_position env id) else None.
Proof. unfold captured. now rewrite (lookup_foldl_insert (get_position env)). Qed.

Lemma captured_recorded s : recorded cfg env (set_positions (captured cfg env) s).
Proof. intros id Hid. simpl. rewrite captured_lookup. now rewrite decide_True. Qed.

(** The physical branch, from any state: the startup, the feed or the wait
    for the button, and then the cycles, unless the button is never
    pressed. *)
Lemma main_physical_eq s :
  main_physical cfg env s
  = if triggered cfg env
    then Ok tt (add_events
                  (physical_prefix cfg env
                     ++ concat (cycles cfg env (cursor s) (Z.to_nat (B cfg))))
                  (advance (Z.to_nat (B cfg) * length (motor_order cfg))
                     (set_positions (captured cfg env) s)))
    else Hang (add_events (physical_prefix cfg env) (set_positions (captured cfg env) s)).
Proof.
  unfold main_physical. erewrite bind_Ok by apply emit_eq.
  erewrite bind_Ok by reflexivity. erewrite bind_Ok by apply capture_loop.
  erewrite bind_Ok by reflexivity.
  cbn [initial_positions add_events set_positions cursor trace]. fold captured.
  set (s1 := {| cursor := cursor s; initial_positions := (captured cfg env);
                trace := ((trace s ++ [EvShowImage "HEART"])
                          ++ (EvGetPosition <$> motor_order cfg))
                         ++ [EvPrintPositions (captured cfg env)] |}).
  assert (Hs1 : forall ev, add_events [ev] s1
                = add_events (EvShowImage "HEART" :: (EvGetPosition <$> motor_order cfg)
                                ++ [EvPrintPositions (captured cfg env); ev])
                    (set_positions (captured cfg env) s)).
  { intros ev. unfold add_events, set_positions, s1. simpl. f_equal.
    rewrite <- !app_assoc. simpl. reflexivity. }
  assert (Hloop : forall ev,
             while_loop cfg env 0 (add_events [ev] s1)
             = Ok tt (add_events
                        ((EvShowImage "HEART" :: (EvGetPosition <$> motor_order cfg)
                            ++ [EvPrintPositions (captured cfg env); ev])
                           ++ concat (cycles cfg env (cursor s) (Z.to_nat (B cfg))))
                        (advance (Z.to_nat (B cfg) * length (motor_order cfg))
                           (set_positions (captured cfg env) s)))).
  { intros ev. rewrite Hs1.
    rewrite (while_loop_cycles (Z.to_nat (B cfg))); [|lia|apply captured_recorded].
    now rewrite advance_add_events, add_events_app. }
  unfold triggered, physical_prefix, sync_event.
  destruct (String.eqb (MODE cfg) "top"); simpl orb.
  - erewrite bind_Ok by apply emit_eq. apply Hloop.
  - unfold bind at 1. unfold wait_until_pressed. rewrite emit_eq.
    destruct (left_button_pressed env).
    + apply Hloop.
    + now rewrite Hs1.
Qed.

End Physical.

(** *** Shape of the cycles *)

Lemma Forall2_imap {A C} (Q : A -> C -> Prop) (f : nat -> A -> C) (l : list A) :
  (forall j x, Q x (f j x)) -> Forall2 Q l (imap f l).
Proof.
  revert f. induction l as [|x l IH]; intros f Hf; cbn [imap]; constructor.
  - apply Hf.
  - apply IH. intros j y. apply Hf.
Qed.

Lemma cycles_shape cfg env (Q : string -> event -> Prop) c k :
  (forall c' row id, Q id (move_command cfg env c' row id)) ->
  Forall (cycle_shape cfg env Q) (cycles cfg env c k).
Proof.
  intros HQ. revert c. induction k as [|k IH]; intros c; cbn [cycles]; constructor.
  - exists (move_commands cfg env c). split; [reflexivity|].
    apply Forall2_imap. intros j x. apply HQ.
  - apply IH.
Qed.

Lemma length_cycles cfg env c k : length (cycles cfg env c k) = k.
Proof. revert c. induction k as [|k IH]; intros c; simpl; [|rewrite IH]; reflexivity. Qed.

Lemma main_physical_mode cfg env :
  MODE cfg <> "sim" -> main cfg env = main_physical cfg env.
Proof. intros Hm. unfold main. apply String.eqb_neq in Hm. now rewrite Hm. Qed.

(** *** The dictionary of positions is not written by the loop *)

Lemma keeps_ret {A} (a : A) : keeps_positions (ret a).
Proof. intros s. reflexivity. Qed.

Lemma keeps_raise {A} e : keeps_positions (@raise A e).
Proof. intros s. reflexivity. Qed.

Lemma keeps_bind {A C} (m : M A) (k : A -> M C) :
  keeps_positions m -> (forall a, keeps_positions (k a)) -> keeps_positions (bind m k).
Proof.
  intros Hm Hk s. specialize (Hm s). unfold bind.
  destruct (m s) as [a s'|e s'|s']; simpl in *; try exact Hm.
  now rewrite Hk.
Qed.

Lemma keeps_for_in {A V} (l : list A) (body : A -> V -> M V) v :
  (forall x v, keeps_positions (body x v)) -> keeps_positions (for_in l body v).
Proof.
  intros Hb. revert v. induction l as [|x l IH]; intros v; cbn [for_in].
  - apply keeps_ret.
  - apply keeps_bind; [apply Hb|apply IH].
Qed.

Lemma keeps_emit ev : keeps_positions (emit ev).
Proof. intros s. reflexivity. Qed.

Lemma keeps_bern cfg env : keeps_positions (bern cfg env).
Proof. intros s. now rewrite bern_eq. Qed.

Lemma keeps_recorded_position id : keeps_positions (recorded_position id).
Proof.
  intros s. unfold recorded_position, getitem.
  destruct (initial_positions s !! id); reflexivity.
Qed.

Lemma keeps_cycle cfg env : keeps_positions (cycle cfg env).
Proof.
  unfold cycle. apply keeps_bind; [|intros _; apply keeps_bind].
  - apply keeps_for_in. intros id row_count. unfold move_motor.
    apply keeps_bind; [apply keeps_bern|]. intros right.
    apply keeps_bind.
    + destruct (_ || _); (apply keeps_bind; [apply keeps_recorded_position|]);
        intros p; apply keeps_ret.
    + intros pos. apply keeps_bind; [apply keeps_emit|]. intros _. apply keeps_ret.
  - apply keeps_emit.
  - intros _. apply keeps_for_in. intros id []. unfold reset_motor.
    apply keeps_bind; [apply keeps_recorded_position|]. intros p. apply keeps_emit.
Qed.

Lemma keeps_while_loop cfg env ball_count : keeps_positions (while_loop cfg env ball_count).
Proof.
  intros s. remember (Z.to_nat (B cfg - ball_count)) as k eqn:Hk.
  revert ball_count s Hk. induction k as [|k IH]; intros ball_count s Hk;
    rewrite while_loop_eq; destruct Z_lt_dec; try lia; try reflexivity.
  pose proof (keeps_cycle cfg env s) as Hc.
  destruct (cycle cfg env s) as [[] s'|e s'|s']; simpl in Hc; try exact Hc.
  rewrite IH by lia. exact Hc.
Qed.

Lemma Forall_imap {A C} (Q : C -> Prop) (f : nat -> A -> C) (l : list A) :
  (forall j x, x ∈ l -> Q (f j x)) -> Forall Q (imap f l).
Proof.
  revert f. induction l as [|x l IH]; intros f Hf; cbn [imap]; constructor.
  - apply Hf. by left.
  - apply IH. intros j y Hy. apply Hf. by right.
Qed.

Lemma cycles_Forall cfg env (Q : event -> Prop) c k :
  Q (EvWaitForSeconds 5) ->
  (forall c' row id, id ∈ motor_order cfg -> Q (move_command cfg env c' row id)) ->
  (forall id, id ∈ motor_order cfg -> Q (reset_command cfg env id)) ->
  Forall Q (concat (cycles cfg env c k)).
Proof.
  intros Hw Hm Hr. revert c. induction k as [|k IH]; intros c; cbn [cycles concat].
  - constructor.
  - apply Forall_app. split; [|apply IH].
    unfold cycle_events. apply Forall_app. split.
    + apply Forall_imap. intros j id Hid. now apply Hm.
    + constructor; [exact Hw|]. apply Forall_fmap, Forall_forall.
      intros id Hid. now apply Hr.
Qed.

(** *** The targets of the commands *)

(** C3, as the claim states it, fails on the reset commands: on the top hub
    the motor on port C, at 350 at startup, is sent back to 350 at the end
    of each cycle, which is 0 degrees away from 350 and not 30. *)
Lemma reset_command_targets_initial_position :
  ~ Forall (target_by_opening top_config example_env)
      (trace (final_state (main top_config example_env start))).
Proof.
  intros H. rewrite Forall_forall in H.
  specialize (H (EvRunToPosition "C" 350 "shortest path" 10)).
  assert (EvRunToPosition "C" 350 "shortest path" 10
          ∈ trace (final_state (main top_config example_env start))) as Hin.
  { apply list_elem_of_In. vm_compute. do 14 right. left. reflexivity. }
  apply H in Hin. vm_compute in Hin. destruct Hin as [_ [Hd|Hd]]; discriminate Hd.
Qed.

Lemma move_command_opened_by cfg env c row id :
  opened_by cfg env id (move_command cfg env c row id).
Proof.
  unfold move_command. destruct (move_right _ _); eexists; (split; [reflexivity|]).
  - split; [apply Z.mod_pos_bound; lia|]. left.
    rewrite Zminus_mod_idemp_l. f_equal. lia.
  - split; [apply Z.mod_pos_bound; lia|]. right.
    rewrite Zminus_mod_idemp_r. f_equal. lia.
Qed.

Lemma opposite_arc (a : Z) :
  (- a) mod 360 = if a mod 360 =? 0 then 0 else 360 - a mod 360.
Proof.
  destruct (Z.eqb_spec (a mod 360) 0) as [Hz|Hnz].
  - now apply Z.mod_opp_l_z.
  - now apply Z.mod_opp_l_nz.
Qed.

(** With an opening angle of at most 180 degrees, the opening angle is the
    length of the shorter of the two arcs between the recorded position and
    the target of a move command. *)
Lemma opened_by_shortest_arc cfg env id ev :
  0 <= MOTOR_OPENING_DEGREES cfg <= 180 ->
  opened_by cfg env id ev ->
  exists pos,
    ev = EvRunToPosition id pos "shortest path" (MOTOR_SPEED cfg) /\
    Z.min ((pos - get_position env id) mod 360) ((get_position env id - pos) mod 360)
    = MOTOR_OPENING_DEGREES cfg.
Proof.
  intros Ho (pos & -> & _ & Hd). exists pos. split; [reflexivity|].
  rewrite (Z.mod_small (MOTOR_OPENING_DEGREES cfg)) in Hd by lia.
  replace (get_position env id - pos) with (- (pos - get_position env id)) in * by lia.
  destruct Hd as [Hd|Hd].
  - rewrite opposite_arc, Hd. destruct (Z.eqb_spec (MOTOR_OPENING_DEGREES cfg) 0); lia.
  - rewrite <- (Z.opp_involutive (pos - get_position env id)) at 1.
    rewrite opposite_arc, Hd. destruct (Z.eqb_spec (MOTOR_OPENING_DEGREES cfg) 0); lia.
Qed.

(** C3, amended.  On the physical board the commands come in cycles after
    a startup that sends none.  In each cycle every actuator of the list
    first gets a move command whose target is in [[0,360)] and is
    [MOTOR_OPENING_DEGREES] away (mod 360) from the position recorded for it
    at startup, by the shortest path; after the wait it gets a reset command
    whose target is that recorded position itself. *)
Theorem move_commands_target_by_opening cfg env :
  MODE cfg <> "sim" ->
  exists cs,
    trace (final_state (main cfg env start)) = physical_prefix cfg env ++ concat cs /\
    Forall (fun ev => is_command ev = false) (physical_prefix cfg env) /\
    Forall (cycle_shape cfg env (opened_by cfg env)) cs.
Proof.
  intros Hm. rewrite (main_physical_mode cfg env Hm), main_physical_eq.
  assert (Forall (fun ev => is_command ev = false) (physical_prefix cfg env)) as Hpre.
  { unfold physical_prefix. constructor; [reflexivity|]. apply Forall_app. split.
    - apply Forall_fmap, Forall_forall. reflexivity.
    - repeat constructor. unfold sync_event. now destruct String.eqb. }
  destruct (triggered cfg env).
  - exists (cycles cfg env 0 (Z.to_nat (B cfg))). split; [reflexivity|].
    split; [exact Hpre|]. apply cycles_shape. apply move_command_opened_by.
  - exists []. simpl. rewrite app_nil_r. repeat split; [exact Hpre|constructor].
Qed.

Lemma move_commands_target_by_opening_witness :
  exists cs,
    trace (final_state (main top_config example_env start))
    = physical_prefix top_config example_env ++ concat cs /\
    Forall (fun ev => is_command ev = false) (physical_prefix top_config example_env) /\
    Forall (cycle_shape top_config example_env (opened_by top_config example_env)) cs.
Proof.
  apply (move_commands_target_by_opening top_config example_env).
  simpl. discriminate.
Defined.

(** *** Parity and direction *)

(** C4.  In a cycle the actuators are processed in the order of the hub's
    list, [row_count] running from 1.  The one processed as the
    [row_count]-th, on the draw [right], has
    [parity = (parity_start + row_count) mod 2], with [parity_start] 1 on
    the primary hub and 0 on a secondary one, and is sent to the right
    (initial position plus the opening angle) exactly when
    [(right and parity = 0) or (not right and parity = 1)], and to the left
    otherwise. *)
Theorem direction_follows_parity cfg env s :
  recorded cfg env s ->
  for_in (motor_order cfg) (move_motor cfg env) 0 s
  = Ok (Z.of_nat (length (motor_order cfg)))
       (add_events
          (imap (fun j id =>
                   let row_count := Z.of_nat j + 1 in
                   let right := drawn_right cfg env (cursor s + j) in
                   let parity := (parity_start_of (role_of cfg) + row_count) mod 2 in
                   EvRunToPosition id
                     (if move_right right parity
                      then (get_position env id + MOTOR_OPENING_DEGREES cfg) mod 360
                      else (get_position env id - MOTOR_OPENING_DEGREES cfg) mod 360)
                     "shortest path" (MOTOR_SPEED cfg))
             (motor_order cfg))
          (advance (length (motor_order cfg)) s))
  /\ (forall right parity,
        move_right right parity = true
        <-> (right = true /\ parity = 0) \/ (right = false /\ parity = 1)).
Proof.
  intros Hs. split.
  - rewrite (move_loop cfg env (motor_order cfg) 0 s Hs). reflexivity.
  - intros right parity. unfold move_right.
    destruct right, (Z.eqb_spec parity 0), (Z.eqb_spec parity 1); simpl;
      split; intros H; try discriminate; try lia; try reflexivity; auto;
      destruct H as [[H1 H2]|[H1 H2]]; try discriminate; lia.
Qed.

Lemma direction_follows_parity_witness :
  for_in (motor_order top_config) (move_motor top_config example_env) 0
    (set_positions (captured top_config example_env) start)
  = Ok 5
      (add_events
         [EvRunToPosition "C" 20 "shortest path" 10;
          EvRunToPosition "E" 40 "shortest path" 10;
          EvRunToPosition "B" 340 "shortest path" 10;
          EvRunToPosition "D" 40 "shortest path" 10;
          EvRunToPosition "F" 340 "shortest path" 10]
         (advance 5 (set_positions (captured top_config example_env) start))).
Proof.
  apply (direction_follows_parity top_config example_env
           (set_positions (captured top_config example_env) start)).
  apply captured_recorded.
Defined.

(** *** The cycles *)

(** C5.  Once started (the top hub, or another hub whose button is
    pressed), the sequencer returns after exactly [B] cycles.  Each cycle
    is: one command for every actuator of the hub's list, in order; the wait
    of 5 seconds; one reset command for every actuator of the list, to the
    position recorded for it at startup, at the same speed and by the
    shortest path.  Nothing follows the last cycle. *)
Theorem sequencer_runs_B_cycles cfg env :
  MODE cfg <> "sim" -> triggered cfg env = true ->
  exists s' cs,
    main cfg env start = Ok tt s' /\
    trace s' = physical_prefix cfg env ++ concat cs /\
    length cs = Z.to_nat (B cfg) /\
    Forall (cycle_shape cfg env (commands cfg)) cs /\
    recorded cfg env s'.
Proof.
  intros Hm Ht. rewrite (main_physical_mode cfg env Hm), main_physical_eq, Ht.
  eexists _, (cycles cfg env 0 (Z.to_nat (B cfg))). split; [reflexivity|].
  split; [reflexivity|]. split; [apply length_cycles|]. split.
  - apply cycles_shape. intros c row id. eexists. reflexivity.
  - apply (captured_recorded cfg env start).
Qed.

Lemma sequencer_runs_B_cycles_witness :
  exists s' cs,
    main top_config example_env start = Ok tt s' /\
    trace s' = physical_prefix top_config example_env ++ concat cs /\
    length cs = 50%nat /\
    Forall (cycle_shape top_config example_env (commands top_config)) cs /\
    recorded top_config example_env s'.
Proof.
  apply (sequencer_runs_B_cycles top_config example_env).
  - simpl. discriminate.
  - reflexivity.
Defined.

(** *** The secondary hub waits for its button *)

(** C8.  On a secondary hub every event before the wait for the left button
    is the heart image, a position read or the print of the positions: no
    command to a motor.  When the button is pressed the cycles follow the
    wait; when it never is, the program hangs in the wait and its trace ends
    there, so that no cycle starts. *)
Theorem secondary_waits_for_trigger cfg env :
  MODE cfg <> "sim" -> MODE cfg <> "top" ->
  let before :=
    EvShowImage "HEART" :: (EvGetPosition <$> motor_order cfg)
      ++ [EvPrintPositions (captured cfg env)] in
  Forall (fun ev => is_command ev = false) before /\
  if left_button_pressed env
  then exists s',
      main cfg env start = Ok tt s' /\
      trace s' = before ++ EvWaitUntilPressed
                   :: concat (cycles cfg env 0 (Z.to_nat (B cfg)))
  else exists s',
      main cfg env start = Hang s' /\
      trace s' = before ++ [EvWaitUntilPressed].
Proof.
  intros Hm Htop before. split.
  - subst before. constructor; [reflexivity|]. apply Forall_app. split.
    + apply Forall_fmap, Forall_forall. reflexivity.
    + repeat constructor.
  - rewrite (main_physical_mode cfg env Hm), main_physical_eq.
    unfold triggered, physical_prefix, sync_event.
    apply String.eqb_neq in Htop. rewrite Htop. simpl orb.
    destruct (left_button_pressed env); eexists; (split; [reflexivity|]);
      subst before; simpl; rewrite <- ?app_assoc; reflexivity.
Qed.

Lemma secondary_waits_for_trigger_witness :
  let before :=
    EvShowImage "HEART" :: (EvGetPosition <$> motor_order reg_config)
      ++ [EvPrintPositions (captured reg_config example_env')] in
  Forall (fun ev => is_command ev = false) before /\
  exists s',
    main reg_config example_env' start = Hang s' /\
    trace s' = before ++ [EvWaitUntilPressed].
Proof.
  apply (secondary_waits_for_trigger reg_config example_env');
    simpl; discriminate.
Defined.

(** *** The recorded positions *)

(** C9.  On the physical board the positions are read and recorded at
    startup, once for each entry of the hub's list of actuators (which
    names each actuator once), before the feed or the wait and before any
    cycle.  No position is read afterwards, every command's target is
    computed from the recorded value, and neither a cycle nor the loop
    changes the dictionary, from whatever state and however they end: at
    the end of the run it is what the startup recorded. *)
Theorem initial_positions_written_once cfg env :
  MODE cfg <> "sim" ->
  (exists rest,
      trace (final_state (main cfg env start))
      = EvShowImage "HEART" :: (EvGetPosition <$> motor_order cfg) ++ rest /\
      Forall not_a_read rest /\
      Forall (from_recorded cfg (captured cfg env)) rest) /\
  initial_positions (final_state (main cfg env start)) = captured cfg env /\
  (forall s, initial_positions (final_state (cycle cfg env s)) = initial_positions s) /\
  (forall ball_count s,
      initial_positions (final_state (while_loop cfg env ball_count s))
      = initial_positions s).
Proof.
  intros Hm. split; [|split; [|split]].
  - rewrite (main_physical_mode cfg env Hm), main_physical_eq.
    assert (not_a_read (sync_event cfg)) as Hsync
      by (intros id; unfold sync_event; now destruct String.eqb).
    assert (from_recorded cfg (captured cfg env) (sync_event cfg)) as Hsync'
      by (unfold sync_event; now destruct String.eqb).
    destruct (triggered cfg env).
    + exists ([EvPrintPositions (captured cfg env); sync_event cfg]
              ++ concat (cycles cfg env 0 (Z.to_nat (B cfg)))).
      split; [|split].
      * unfold physical_prefix. simpl. now rewrite <- !app_assoc.
      * apply Forall_app. split; [repeat constructor; [intros id|]; done|].
        apply cycles_Forall; [intros id; done|intros; intros id'; done|].
        intros id _ id'. done.
      * apply Forall_app. split; [repeat constructor; done|].
        apply cycles_Forall; [done| |].
        -- intros c row id Hid. unfold move_command. simpl.
           exists (get_position env id). rewrite captured_lookup, decide_True by done.
           split; [done|]. destruct (move_right _ _); auto.
        -- intros id Hid. simpl. exists (get_position env id).
           rewrite captured_lookup, decide_True by done. auto.
    + exists [EvPrintPositions (captured cfg env); sync_event cfg].
      split; [reflexivity|].
      split; repeat constructor; done.
  - rewrite (main_physical_mode cfg env Hm), main_physical_eq.
    now destruct (triggered cfg env).
  - apply keeps_cycle.
  - intros ball_count. apply keeps_while_loop.
Qed.

Lemma initial_positions_written_once_witness :
  (exists rest,
      trace (final_state (main top_config example_env start))
      = EvShowImage "HEART" :: (EvGetPosition <$> ["C"; "E"; "B"; "D"; "F"]) ++ rest /\
      Forall not_a_read rest /\
      Forall (from_recorded top_config (captured top_config example_env)) rest) /\
  initial_positions (final_state (main top_config example_env start))
  = captured top_config example_env /\
  (forall s, initial_positions (final_state (cycle top_config example_env s))
             = initial_positions s) /\
  (forall ball_count s,
      initial_positions (final_state (while_loop top_config example_env ball_count s))
      = initial_positions s).
Proof.
  apply (initial_positions_written_once top_config example_env).
  simpl. discriminate.
Defined.

(** ** Runs on concrete inputs *)

(** Three levels and the draws right, left, right: the ball lands in
    bin 2. *)
Example scenario_lands_in_bin_2 :
  run_one_simulation scenario_config scenario_env start
  = Ok (<[0 := 0]> (<[1 := 0]> (<[2 := 1]> {[3 := 0]}))) (advance 3 start).
Proof. vm_compute. reflexivity. Qed.

(** With a negative number of levels there is no bin at all, and the first
    ball raises [KeyError]. *)
Example negative_levels_raise_KeyError :
  run_one_simulation (with_N scenario_config (-1)) scenario_env start
  = Raise KeyError start.
Proof. vm_compute. reflexivity. Qed.

(** The first cycle of the top hub on the source's constants. *)
Example first_cycle_of_the_top_hub :
  cycle_events top_config example_env 0
  = [EvRunToPosition "C" 20 "shortest path" 10;
     EvRunToPosition "E" 40 "shortest path" 10;
     EvRunToPosition "B" 340 "shortest path" 10;
     EvRunToPosition "D" 40 "shortest path" 10;
     EvRunToPosition "F" 340 "shortest path" 10;
     EvWaitForSeconds 5;
     EvRunToPosition "C" 350 "shortest path" 10;
     EvRunToPosition "E" 10 "shortest path" 10;
     EvRunToPosition "B" 10 "shortest path" 10;
     EvRunToPosition "D" 10 "shortest path" 10;
     EvRunToPosition "F" 10 "shortest path" 10].
Proof. vm_compute. reflexivity. Qed.

(** The primary hub's first actuator ([row_count = 1]) has parity 0 and
    moves right on a draw to the right. *)
Example primary_first_row :
  (parity_start_of Primary + 1) mod 2 = 0 /\ move_right true 0 = true.
Proof. split; reflexivity. Qed.

(** * Further properties *)

(** ** The trial, ball by ball *)

Section TrialCounts.

Variable cfg : config.
Variable env : environment.
Hypothesis N_nonneg : 0 <= N cfg.

Lemma trial_loop_landed {A} (l : list A) (d : gmap Z Z) s :
  (forall j, 0 <= j <= N cfg -> is_Some (d !! j)) ->
  exists d',
    for_in l (fun _ d => drop_ball cfg env d) d s
    = Ok d' (advance (length l * Z.to_nat (N cfg)) s) /\
    forall j, d' !! j = (fun v => v + landed cfg env (cursor s) (length l) j) <$> d !! j.
Proof.
  revert d s. induction l as [|x l IH]; intros d s Hkeys.
  - exists d. simpl. rewrite advance_0. split; [reflexivity|].
    intros j. destruct (d !! j); simpl; [f_equal; lia|reflexivity].
  - pose proof (rights_bounds cfg env (cursor s) (Z.to_nat (N cfg))) as Hb.
    set (b := rights cfg env (cursor s) (Z.to_nat (N cfg))) in *.
    destruct (Hkeys b) as [v Hv]; [lia|].
    destruct (IH (<[b := v + 1]> d) (advance (Z.to_nat (N cfg)) s)) as (d' & E & Hd').
    { intros j Hj. destruct (decide (j = b)) as [->|Hne].
      - rewrite lookup_insert_eq. eauto.
      - rewrite lookup_insert_ne by done. now apply Hkeys. }
    exists d'. split.
    + cbn [for_in]. erewrite bind_Ok by (apply (drop_ball_eq cfg env d s v); exact Hv).
      fold b. now rewrite E, advance_advance.
    + intros j. rewrite Hd'. cbn [landed length]. fold b.
      replace (cursor (advance (Z.to_nat (N cfg)) s))
        with (Z.to_nat (N cfg) + cursor s)%nat by reflexivity.
      destruct (decide (b = j)) as [<-|Hne].
      * rewrite lookup_insert_eq, Hv. simpl. f_equal. lia.
      * rewrite lookup_insert_ne by done. destruct (d !! j); simpl; [f_equal; lia|done].
Qed.

End TrialCounts.

(** X1.  A trial with [N >= 0] levels draws exactly [N * B_SIM] uniform
    values and does nothing else: it emits no event and leaves
    [initial_positions] alone. *)
Theorem run_one_simulation_only_draws cfg env s :
  0 <= N cfg ->
  exists d s',
    run_one_simulation cfg env s = Ok d s' /\
    cursor s' = (cursor s + Z.to_nat (N cfg) * Z.to_nat (B_SIM cfg))%nat /\
    trace s' = trace s /\
    initial_positions s' = initial_positions s.
Proof.
  intros HN. rewrite run_one_simulation_unfold.
  destruct (trial_loop_ok cfg env (range (B_SIM cfg)) _ 0 s HN (empty_bins_ok cfg))
    as (d & E & _).
  eexists d, _. split; [exact E|]. rewrite length_range. simpl.
  repeat split. lia.
Qed.

Lemma run_one_simulation_only_draws_witness :
  exists d s',
    run_one_simulation source_config example_env start = Ok d s' /\
    cursor s' = (0 + 10 * 100)%nat /\
    trace s' = [] /\
    initial_positions s' = ∅.
Proof.
  apply (run_one_simulation_only_draws source_config example_env start).
  simpl; lia.
Defined.

(** X2.  For [N >= 0] the count a trial returns for bin [j] is the number
    of its balls that went right exactly [j] times, the [b]-th ball using
    the [N] uniform values from the [b * N]-th on. *)
Theorem run_one_simulation_counts_landed_balls cfg env s :
  0 <= N cfg ->
  exists d s',
    run_one_simulation cfg env s = Ok d s' /\
    forall j, d !! j = if decide (0 <= j <= N cfg)
                       then Some (landed cfg env (cursor s) (Z.to_nat (B_SIM cfg)) j)
                       else None.
Proof.
  intros HN. rewrite run_one_simulation_unfold.
  destruct (trial_loop_landed cfg env HN (range (B_SIM cfg))
              (foldl (fun d bin => <[bin := 0]> d) ∅ (range (N cfg + 1))) s)
    as (d & E & Hd).
  { intros j Hj. rewrite empty_bins_lookup, decide_True by done. eauto. }
  eexists d, _. split; [exact E|]. intros j.
  rewrite Hd, empty_bins_lookup, length_range.
  destruct (decide (0 <= j <= N cfg)); reflexivity.
Qed.

Lemma run_one_simulation_counts_landed_balls_witness :
  exists d s',
    run_one_simulation scenario_config scenario_env start = Ok d s' /\
    forall j, d !! j = if decide (0 <= j <= 3)
                       then Some (landed scenario_config scenario_env 0 1 j)
                       else None.
Proof.
  apply (run_one_simulation_counts_landed_balls scenario_config scenario_env start).
  simpl; lia.
Defined.

(** X3.  With a negative number of levels and at least one ball, the trial
    has no bin: the first ball raises [KeyError] on bin 0, before any
    uniform value is drawn. *)
Theorem run_one_simulation_negative_levels cfg env s :
  N cfg < 0 -> 0 < B_SIM cfg ->
  run_one_simulation cfg env s = Raise KeyError s.
Proof.
  intros HN HB. unfold run_one_simulation.
  rewrite (range_nonpos (N cfg + 1)), (range_nonpos (N cfg)) by lia.
  replace (B_SIM cfg) with (B_SIM cfg - 1 + 1) by lia.
  rewrite range_succ by lia. reflexivity.
Qed.

Lemma run_one_simulation_negative_levels_witness :
  run_one_simulation (with_N source_config (-1)) example_env start
  = Raise KeyError start.
Proof.
  apply (run_one_simulation_negative_levels (with_N source_config (-1)) example_env start);
    simpl; lia.
Defined.

(** X4.  A trial without a ball ([B_SIM <= 0]) draws nothing and returns
    the dictionary of the bins [0..N], each at 0; the dictionary is empty
    when [N] is negative. *)
Theorem run_one_simulation_no_ball cfg env s :
  B_SIM cfg <= 0 ->
  exists d,
    run_one_simulation cfg env s = Ok d s /\
    forall j, d !! j = if decide (0 <= j <= N cfg) then Some 0 else None.
Proof.
  intros HB. unfold run_one_simulation. rewrite (range_nonpos (B_SIM cfg)) by done.
  eexists. split; [reflexivity|]. intros j. apply empty_bins_lookup.
Qed.

Lemma run_one_simulation_no_ball_witness :
  exists d,
    run_one_simulation (with_B_SIM source_config 0) example_env start = Ok d start /\
    forall j, d !! j = if decide (0 <= j <= 10) then Some 0 else None.
Proof.
  apply (run_one_simulation_no_ball (with_B_SIM source_config 0) example_env start).
  simpl; lia.
Defined.

(** ** A larger [P] never sends a ball less far to the right *)

Lemma bern_value_monotone cfg env p p' i :
  (p <= p')%Q ->
  bern_value (with_P cfg p) env i <= bern_value (with_P cfg p') env i.
Proof.
  intros Hp. unfold bern_value. simpl.
  destruct (Qlt_le_dec (uniform env i) p) as [Hlt|_],
           (Qlt_le_dec (uniform env i) p') as [_|Hle]; try lia.
  exfalso. apply (Qlt_not_le _ _ Hlt). eapply Qle_trans; eassumption.
Qed.

Lemma rights_monotone cfg env p p' c n :
  (p <= p')%Q ->
  rights (with_P cfg p) env c n <= rights (with_P cfg p') env c n.
Proof.
  intros Hp. revert c. induction n as [|n IH]; intros c; cbn [rights]; [lia|].
  pose proof (bern_value_monotone cfg env p p' c Hp). specialize (IH (S c)). lia.
Qed.

(** X5.  On the same uniform values, the bin in which a ball lands (the
    result of the loop over the levels, lines 55-57) does not decrease when
    [P] increases. *)
Theorem landing_bin_monotone_in_P cfg env p p' s :
  (p <= p')%Q ->
  exists b b' s',
    for_in (range (N cfg))
      (fun _ landing_bin => r <- bern (with_P cfg p) env ;; ret (landing_bin + r)) 0 s
    = Ok b s' /\
    for_in (range (N cfg))
      (fun _ landing_bin => r <- bern (with_P cfg p') env ;; ret (landing_bin + r)) 0 s
    = Ok b' s' /\
    b <= b'.
Proof.
  intros Hp. rewrite !landing_bin_loop. eexists _, _, _.
  split; [reflexivity|]. split; [reflexivity|].
  pose proof (rights_monotone cfg env p p' (cursor s) (length (range (N cfg))) Hp).
  lia.
Qed.

Lemma landing_bin_monotone_in_P_witness :
  exists b b' s',
    for_in (range 10)
      (fun _ landing_bin => r <- bern (with_P source_config (1 # 10)%Q) example_env ;;
                            ret (landing_bin + r)) 0 start
    = Ok b s' /\
    for_in (range 10)
      (fun _ landing_bin => r <- bern (with_P source_config (1 # 2)%Q) example_env ;;
                            ret (landing_bin + r)) 0 start
    = Ok b' s' /\
    b <= b'.
Proof.
  apply (landing_bin_monotone_in_P source_config example_env (1 # 10)%Q (1 # 2)%Q start).
  unfold Qle. simpl. lia.
Defined.

(** ** The report, trial by trial *)

Lemma collect_loop_contents (d : gmap Z Z) (l : list Z) (t : gmap Z (list Z)) s :
  NoDup l ->
  (forall j, j ∈ l -> is_Some (d !! j)) ->
  (forall j, j ∈ l -> is_Some (t !! j)) ->
  exists t',
    for_in l (collect d) t s = Ok t' s /\
    (forall j, j ∈ l ->
       exists lst c, t !! j = Some lst /\ d !! j = Some c /\ t' !! j = Some (lst ++ [c])) /\
    (forall j, j ∉ l -> t' !! j = t !! j).
Proof.
  revert t. induction l as [|x l IH]; intros t Hnd Hd Ht.
  - exists t. split; [reflexivity|]. split; [|done].
    intros j Hj. by apply elem_of_nil in Hj.
  - apply NoDup_cons in Hnd as [Hx Hnd].
    destruct (Hd x) as [c Hc]; [by left|].
    destruct (Ht x) as [lst Hlst]; [by left|].
    destruct (IH (<[x := lst ++ [c]]> t)) as (t' & E & Hin & Hout); [done| | |].
    + intros j Hj. apply Hd. by right.
    + intros j Hj. rewrite lookup_insert_ne by (intros ->; done).
      apply Ht. by right.
    + exists t'. split; [|split].
      * cbn [for_in]. unfold bind at 1. unfold collect at 1.
        unfold bind, getitem, setitem_append, bind, getitem, ret.
        rewrite Hc, Hlst. exact E.
      * intros j Hj. apply elem_of_cons in Hj as [->|Hj].
        -- exists lst, c. rewrite (Hout x Hx), lookup_insert_eq. done.
        -- destruct (Hin j Hj) as (lst' & c' & H1 & H2 & H3).
           exists lst', c'. rewrite lookup_insert_ne in H1 by (intros ->; done).
           done.
      * intros j Hj. apply not_elem_of_cons in Hj as [Hne Hj].
        rewrite (Hout j Hj). by rewrite lookup_insert_ne.
Qed.

Section ReportContents.

Variable cfg : config.
Variable env : environment.
Hypothesis N_nonneg : 0 <= N cfg.

Lemma one_trial_contents t s :
  (forall j, 0 <= j <= N cfg -> is_Some (t !! j)) ->
  exists t',
    one_trial cfg env t s
    = Ok t' (advance (Z.to_nat (B_SIM cfg) * Z.to_nat (N cfg)) s) /\
    forall j, 0 <= j <= N cfg ->
      t' !! j = (fun lst => lst ++ [landed cfg env (cursor s) (Z.to_nat (B_SIM cfg)) j])
                <$> t !! j.
Proof.
  intros Ht. unfold one_trial.
  destruct (trial_loop_landed cfg env N_nonneg (range (B_SIM cfg))
              (foldl (fun d bin => <[bin := 0]> d) ∅ (range (N cfg + 1))) s)
    as (d & E & Hd).
  { intros j Hj. rewrite empty_bins_lookup, decide_True by done. eauto. }
  rewrite <- run_one_simulation_unfold, length_range in E.
  erewrite bind_Ok by exact E.
  destruct (collect_loop_contents d (range (N cfg + 1)) t
              (advance (Z.to_nat (B_SIM cfg) * Z.to_nat (N cfg)) s))
    as (t' & E' & Hin & _).
  - apply NoDup_range.
  - intros j Hj. apply elem_of_range in Hj. rewrite Hd, empty_bins_lookup.
    rewrite decide_True by lia. simpl. eauto.
  - intros j Hj. apply Ht. apply elem_of_range in Hj. lia.
  - exists t'. split; [exact E'|]. intros j Hj.
    destruct (Hin j) as (lst & c & H1 & H2 & H3); [apply elem_of_range; lia|].
    rewrite H3, H1. simpl. rewrite Hd, empty_bins_lookup, decide_True in H2 by done.
    simpl in H2. rewrite length_range in H2. injection H2 as <-.
    now rewrite Z.add_0_l.
Qed.

Lemma trials_loop_contents {A} (l : list A) t s :
  (forall j, 0 <= j <= N cfg -> is_Some (t !! j)) ->
  exists t',
    for_in l (fun _ t => one_trial cfg env t) t s
    = Ok t' (advance (length l * (Z.to_nat (B_SIM cfg) * Z.to_nat (N cfg))) s) /\
    forall j, 0 <= j <= N cfg ->
      t' !! j = (fun lst => lst ++ trial_counts cfg env (cursor s) (length l) j)
                <$> t !! j.
Proof.
  revert t s. induction l as [|x l IH]; intros t s Ht.
  - exists t. simpl. rewrite advance_0. split; [reflexivity|].
    intros j Hj. destruct (t !! j); simpl; [now rewrite app_nil_r|done].
  - destruct (one_trial_contents t s Ht) as (t1 & E1 & Ht1).
    destruct (IH t1 (advance (Z.to_nat (B_SIM cfg) * Z.to_nat (N cfg)) s))
      as (t2 & E2 & Ht2).
    { intros j Hj. rewrite (Ht1 j Hj). destruct (Ht j Hj) as [lst ->]. simpl. eauto. }
    exists t2. split.
    + cbn [for_in]. erewrite bind_Ok by exact E1.
      now rewrite E2, advance_advance.
    + intros j Hj. rewrite (Ht2 j Hj), (Ht1 j Hj).
      destruct (t !! j); simpl; [|done].
      now rewrite <- app_assoc.
Qed.

Lemma report_loop_contents t (f : Z -> list Z) (l : list Z) s :
  (forall j, j ∈ l -> t !! j = Some (f j) /\ f j <> []) ->
  for_in l (report_bin cfg env t) tt s
  = Ok tt (add_events ((fun j => stats_line cfg env j (f j)) <$> l) s).
Proof.
  revert s. induction l as [|bin l IH]; intros s Ht.
  - simpl. now rewrite add_events_nil.
  - destruct (Ht bin) as [Hbin Hne]; [by left|].
    cbn [for_in]. unfold bind at 1. unfold report_bin at 1.
    unfold bind, getitem, ret. rewrite Hbin.
    destruct (f bin) as [|x lst] eqn:Ef; [done|]. unfold py_truediv.
    destruct (Z.eqb_spec (Z.of_nat (length (x :: lst))) 0) as [Hz|_];
      [simpl in Hz; lia|].
    cbn [lift py_max py_min ret]. rewrite emit_eq.
    rewrite IH by (intros j Hj; apply Ht; by right).
    rewrite add_events_app. cbn [fmap list_fmap]. rewrite Ef. reflexivity.
Qed.

End ReportContents.

Lemma trial_counts_length cfg env c k j : length (trial_counts cfg env c k j) = k.
Proof. revert c. induction k as [|k IH]; intros c; simpl; [|rewrite IH]; reflexivity. Qed.

(** The simulation branch in closed form, with [N >= 0] and at least one
    trial. *)
Lemma main_sim_eq cfg env s :
  0 <= N cfg -> 0 < n_sim cfg ->
  main_sim cfg env s
  = Ok tt
      (add_events
         (EvPrintHeader (n_sim cfg)
          :: ((fun j => stats_line cfg env j
                          (trial_counts cfg env (cursor s) (Z.to_nat (n_sim cfg)) j))
              <$> range (N cfg + 1)))
         (advance (Z.to_nat (n_sim cfg) * (Z.to_nat (B_SIM cfg) * Z.to_nat (N cfg))) s)).
Proof.
  intros HN Hn. rewrite main_sim_unfold.
  destruct (trials_loop_contents cfg env HN (range (n_sim cfg))
              (foldl (fun d bin => <[bin := []]> d) ∅ (range (N cfg + 1))) s)
    as (t & E & Ht).
  { intros j Hj. rewrite empty_trials_lookup, decide_True by done. eauto. }
  rewrite length_range in *.
  erewrite bind_Ok by exact E. erewrite bind_Ok by apply emit_eq.
  rewrite (report_loop_contents cfg env t
             (fun j => trial_counts cfg env (cursor s) (Z.to_nat (n_sim cfg)) j)).
  - now rewrite add_events_app.
  - intros j Hj. apply elem_of_range in Hj. split.
    + rewrite Ht, empty_trials_lookup, decide_True by lia. reflexivity.
    + intros Hnil. apply (f_equal length) in Hnil.
      rewrite trial_counts_length in Hnil. simpl in Hnil. lia.
Qed.

(** C6, amended.  Nothing checks that there is a trial.  For [N >= 0], the
    simulation branch with at least one trial raises nothing: it prints the
    header and, for each bin of [0..N] in order, the line of the mean (as
    the device rounds it to one decimal), the maximum and the minimum of
    the [n_sim] counts that the successive trials gave to that bin.  With no
    trial it prints the header and stops on the [ZeroDivisionError] of the
    mean of bin 0. *)
Theorem aggregation_needs_a_trial cfg env s :
  0 <= N cfg ->
  (0 < n_sim cfg /\
   exists s',
     main_sim cfg env s = Ok tt s' /\
     trace s'
     = trace s
       ++ EvPrintHeader (n_sim cfg)
          :: ((fun bin =>
                 stats_line cfg env bin
                   (trial_counts cfg env (cursor s) (Z.to_nat (n_sim cfg)) bin))
              <$> range (N cfg + 1)))
  \/
  (n_sim cfg <= 0 /\
   main_sim cfg env s
   = Raise ZeroDivisionError (add_events [EvPrintHeader (n_sim cfg)] s)).
Proof.
  intros HN. destruct (Z_lt_le_dec 0 (n_sim cfg)) as [Hn|Hn].
  - left. split; [done|]. rewrite (main_sim_eq cfg env s HN Hn).
    eexists. split; reflexivity.
  - right. split; [done|]. now apply main_sim_empty.
Qed.

Lemma aggregation_needs_a_trial_witness :
  exists s',
    main_sim source_config example_env start = Ok tt s' /\
    trace s'
    = EvPrintHeader 10
      :: ((fun bin =>
             stats_line source_config example_env bin
               (trial_counts source_config example_env 0 10 bin))
          <$> range 11).
Proof.
  destruct (aggregation_needs_a_trial source_config example_env start)
    as [[_ H]|[H _]].
  - simpl; lia.
  - exact H.
  - simpl in H; lia.
Defined.

(** ** Bounds on the statistics *)

Lemma foldl_add (a : Z) (l : list Z) : foldl Z.add a l = a + py_sum l.
Proof.
  unfold py_sum. revert a. induction l as [|x l IH]; intros a; cbn [foldl]; [lia|].
  rewrite (IH (a + x)), (IH (0 + x)). lia.
Qed.

Lemma py_sum_cons x l : py_sum (x :: l) = x + py_sum l.
Proof. unfold py_sum at 1. cbn [foldl]. rewrite foldl_add. lia. Qed.


Lemma foldl_min_spec (x : Z) (l : list Z) :
  foldl Z.min x l ∈ x :: l /\ Forall (fun y => foldl Z.min x l <= y) (x :: l).
Proof.
  revert x. induction l as [|y l IH]; intros x; simpl.
  - split; [by left|]. repeat constructor. lia.
  - destruct (IH (Z.min x y)) as [Hin Hle]. split.
    + apply elem_of_cons in Hin as [->|Hin]; [|by do 2 right].
      destruct (Z.min_spec x y) as [[_ ->]|[_ ->]]; [by left|right; by left].
    + apply Forall_cons in Hle as [H1 Hle].
      repeat constructor; [lia|lia|exact Hle].
Qed.

Lemma foldl_max_spec (x : Z) (l : list Z) :
  foldl Z.max x l ∈ x :: l /\ Forall (fun y => y <= foldl Z.max x l) (x :: l).
Proof.
  revert x. induction l as [|y l IH]; intros x; simpl.
  - split; [by left|]. repeat constructor. lia.
  - destruct (IH (Z.max x y)) as [Hin Hle]. split.
    + apply elem_of_cons in Hin as [->|Hin]; [|by do 2 right].
      destruct (Z.max_spec x y) as [[_ ->]|[_ ->]]; [right; by left|by left].
    + apply Forall_cons in Hle as [H1 Hle].
      repeat constructor; [lia|lia|exact Hle].
Qed.




(** X6.  With [N >= 0] and at least one trial, the simulation branch prints
    the header and then, for each bin of [0..N] in order, the line of the
    mean (as the device rounds it to one decimal), the maximum and the
    minimum of the counts that the [n_sim] successive trials give to that
    bin, the [i]-th trial using the uniform values from the
    [i * B_SIM * N]-th on; the trials draw [n_sim * B_SIM * N] uniform
    values in all. *)
Theorem main_sim_reports_trial_counts cfg env s :
  0 <= N cfg -> 0 < n_sim cfg ->
  exists s',
    main_sim cfg env s = Ok tt s' /\
    trace s'
    = trace s
      ++ EvPrintHeader (n_sim cfg)
         :: ((fun j => stats_line cfg env j
                         (trial_counts cfg env (cursor s) (Z.to_nat (n_sim cfg)) j))
             <$> range (N cfg + 1)) /\
    cursor s'
    = (cursor s + Z.to_nat (n_sim cfg) * (Z.to_nat (B_SIM cfg) * Z.to_nat (N cfg)))%nat.
Proof.
  intros HN Hn. rewrite (main_sim_eq cfg env s HN Hn).
  eexists. split; [reflexivity|]. split; [reflexivity|]. simpl. lia.
Qed.

Lemma main_sim_reports_trial_counts_witness :
  exists s',
    main_sim source_config example_env start = Ok tt s' /\
    trace s'
    = EvPrintHeader 10
      :: ((fun j => stats_line source_config example_env j
                      (trial_counts source_config example_env 0 10 j))
          <$> range 11) /\
    cursor s' = (0 + 10 * (100 * 10))%nat.
Proof.
  apply (main_sim_reports_trial_counts source_config example_env start); simpl; lia.
Defined.



(** ** The extremes bracket the number of balls *)

Lemma sum_over_add (f g : Z -> Z) (l : list Z) :
  sum_over (fun j => f j + g j) l = sum_over f l + sum_over g l.
Proof. induction l as [|j l IH]; simpl; lia. Qed.

Lemma sum_over_const_zero (l : list Z) : sum_over (fun _ => 0) l = 0.
Proof. induction l as [|j l IH]; simpl; lia. Qed.

Lemma sum_over_indicator (r : Z) (l : list Z) :
  NoDup l ->
  sum_over (fun j => if decide (r = j) then 1 else 0) l
  = if decide (r ∈ l) then 1 else 0.
Proof.
  intros Hnd. induction Hnd as [|j l Hj _ IH]; simpl.
  - destruct (decide (r ∈ [])) as [Hr|]; [|done]. by apply elem_of_nil in Hr.
  - rewrite IH.
    destruct (decide (r = j)) as [Heq|Hne], (decide (r ∈ l)) as [Hl|Hl],
      (decide (r ∈ j :: l)) as [Hc|Hc]; try done; exfalso;
      rewrite elem_of_cons in Hc; subst; tauto.
Qed.

Lemma sum_over_landed cfg env c b :
  0 <= N cfg ->
  sum_over (landed cfg env c b) (range (N cfg + 1)) = Z.of_nat b.
Proof.
  intros HN. revert c. induction b as [|b IH]; intros c.
  - apply sum_over_const_zero.
  - cbn [landed].
    rewrite (sum_over_add
               (fun j => if decide (rights cfg env c (Z.to_nat (N cfg)) = j) then 1 else 0)).
    rewrite IH, sum_over_indicator by apply NoDup_range.
    rewrite decide_True; [lia|].
    apply elem_of_range. pose proof (rights_bounds cfg env c (Z.to_nat (N cfg))). lia.
Qed.

Lemma sum_over_trial_counts cfg env c k :
  0 <= N cfg ->
  sum_over (fun j => py_sum (trial_counts cfg env c k j)) (range (N cfg + 1))
  = Z.of_nat k * Z.of_nat (Z.to_nat (B_SIM cfg)).
Proof.
  intros HN. revert c. induction k as [|k IH]; intros c.
  - apply sum_over_const_zero.
  - cbn [trial_counts].
    transitivity (sum_over (fun j => landed cfg env c (Z.to_nat (B_SIM cfg)) j
                             + py_sum (trial_counts cfg env
                                         (Z.to_nat (B_SIM cfg) * Z.to_nat (N cfg) + c) k j))
                    (range (N cfg + 1))).
    + generalize (range (N cfg + 1)). intros l.
      induction l as [|j l IHl]; simpl; [reflexivity|].
      rewrite py_sum_cons, IHl. reflexivity.
    + rewrite sum_over_add, sum_over_landed, IH by done. lia.
Qed.

Lemma sum_over_le (f g : Z -> Z) (l : list Z) :
  (forall j, j ∈ l -> f j <= g j) -> sum_over f l <= sum_over g l.
Proof.
  induction l as [|j l IH]; intros Hle; simpl; [lia|].
  pose proof (Hle j ltac:(by left)).
  assert (sum_over f l <= sum_over g l) by (apply IH; intros j' Hj'; apply Hle; by right).
  lia.
Qed.

Lemma column_total_fmap (column : event -> Z) (line : Z -> event) (l : list Z) :
  column_total column (line <$> l) = sum_over (fun j => column (line j)) l.
Proof. induction l as [|j l IH]; simpl; [reflexivity|]. now rewrite <- IH. Qed.

(** X8.  With [N >= 0], [B_SIM >= 0] and at least one trial, the minima
    printed for the bins add up to at most [B_SIM] and the maxima printed
    to at least [B_SIM]: the balls of any one trial are spread over the
    bins. *)
Theorem report_extremes_bracket_the_balls cfg env s :
  0 <= N cfg -> 0 <= B_SIM cfg -> 0 < n_sim cfg ->
  exists evs s',
    main_sim cfg env s = Ok tt s' /\
    trace s' = trace s ++ evs /\
    column_total line_min evs <= B_SIM cfg <= column_total line_max evs.
Proof.
  intros HN HB Hn. rewrite (main_sim_eq cfg env s HN Hn).
  eexists _, _. split; [reflexivity|]. split; [reflexivity|].
  cbn [column_total foldr line_min line_max].
  fold (column_total line_min
          ((fun j => stats_line cfg env j
                       (trial_counts cfg env (cursor s) (Z.to_nat (n_sim cfg)) j))
           <$> range (N cfg + 1))).
  fold (column_total line_max
          ((fun j => stats_line cfg env j
                       (trial_counts cfg env (cursor s) (Z.to_nat (n_sim cfg)) j))
           <$> range (N cfg + 1))).
  rewrite !column_total_fmap.
  destruct (Z.to_nat (n_sim cfg)) as [|k] eqn:Ek; [lia|].
  pose proof (sum_over_landed cfg env (cursor s) (Z.to_nat (B_SIM cfg)) HN) as Hsum.
  rewrite Z2Nat.id in Hsum by lia. rewrite !Z.add_0_l. split.
  - etransitivity; [|apply Z.eq_le_incl; exact Hsum].
    apply sum_over_le. intros j _.
    cbn [trial_counts stats_line line_min hd tl].
    destruct (foldl_min_spec (landed cfg env (cursor s) (Z.to_nat (B_SIM cfg)) j)
                (trial_counts cfg env
                   (Z.to_nat (B_SIM cfg) * Z.to_nat (N cfg) + cursor s) k j))
      as [_ Hle].
    apply Forall_cons in Hle as [Hle _]. exact Hle.
  - etransitivity; [apply Z.eq_le_incl; symmetry; exact Hsum|].
    apply sum_over_le. intros j _.
    cbn [trial_counts stats_line line_max hd tl].
    destruct (foldl_max_spec (landed cfg env (cursor s) (Z.to_nat (B_SIM cfg)) j)
                (trial_counts cfg env
                   (Z.to_nat (B_SIM cfg) * Z.to_nat (N cfg) + cursor s) k j))
      as [_ Hle].
    apply Forall_cons in Hle as [Hle _]. exact Hle.
Qed.

Lemma report_extremes_bracket_the_balls_witness :
  exists evs s',
    main_sim source_config example_env start = Ok tt s' /\
    trace s' = evs /\
    column_total line_min evs <= 100 <= column_total line_max evs.
Proof.
  apply (report_extremes_bracket_the_balls source_config example_env start);
    simpl; lia.
Defined.

(** ** The simulation only prints *)

Lemma emits_only_ret {A} Q (a : A) : emits_only Q (ret a).
Proof. intros s. exists []. simpl. now rewrite app_nil_r. Qed.

Lemma emits_only_raise {A} Q e : emits_only Q (@raise A e).
Proof. intros s. exists []. simpl. now rewrite app_nil_r. Qed.

Lemma emits_only_bind {A C} Q (m : M A) (k : A -> M C) :
  emits_only Q m -> (forall a, emits_only Q (k a)) -> emits_only Q (bind m k).
Proof.
  intros Hm Hk s. destruct (Hm s) as (e1 & E1 & H1). unfold bind.
  destruct (m s) as [a s'|e s'|s']; simpl in *; eauto.
  destruct (Hk a s') as (e2 & E2 & H2). exists (e1 ++ e2).
  rewrite E2, E1, app_assoc. split; [reflexivity|]. now apply Forall_app.
Qed.

Lemma emits_only_for_in {A V} Q (l : list A) (body : A -> V -> M V) v :
  (forall x v, emits_only Q (body x v)) -> emits_only Q (for_in l body v).
Proof.
  intros Hb. revert v. induction l as [|x l IH]; intros v; cbn [for_in].
  - apply emits_only_ret.
  - apply emits_only_bind; [apply Hb|apply IH].
Qed.

Lemma emits_only_emit (Q : event -> Prop) ev : Q ev -> emits_only Q (emit ev).
Proof. intros Hev s. exists [ev]. split; [reflexivity|]. now repeat constructor. Qed.

Lemma emits_only_bern Q cfg env : emits_only Q (bern cfg env).
Proof. intros s. exists []. rewrite bern_eq. simpl. now rewrite app_nil_r. Qed.

Lemma emits_only_getitem `{Countable K} {V} Q (d : gmap K V) k :
  emits_only Q (getitem d k).
Proof.
  unfold getitem. destruct (d !! k); [apply emits_only_ret|apply emits_only_raise].
Qed.

Lemma emits_only_lift {A} Q (r : exn + A) : emits_only Q (lift r).
Proof. destruct r; [apply emits_only_raise|apply emits_only_ret]. Qed.

Lemma emits_only_run_one_simulation Q cfg env :
  emits_only Q (run_one_simulation cfg env).
Proof.
  unfold run_one_simulation. apply emits_only_for_in. intros _ d.
  apply emits_only_bind.
  - apply emits_only_for_in. intros _ b. apply emits_only_bind.
    + apply emits_only_bern.
    + intros r. apply emits_only_ret.
  - intros b. unfold setitem_add. apply emits_only_bind.
    + apply emits_only_getitem.
    + intros v. apply emits_only_ret.
Qed.

Lemma emits_only_main_sim cfg env : emits_only is_report (main_sim cfg env).
Proof.
  unfold main_sim. apply emits_only_bind.
  - apply emits_only_for_in. intros _ t. apply emits_only_bind.
    + apply emits_only_run_one_simulation.
    + intros d. apply emits_only_for_in. intros bin t'.
      apply emits_only_bind; [apply emits_only_getitem|].
      intros c. unfold setitem_append.
      apply emits_only_bind; [apply emits_only_getitem|].
      intros lst. apply emits_only_ret.
  - intros t. apply emits_only_bind; [now apply emits_only_emit|].
    intros _. apply emits_only_for_in. intros bin [].
    apply emits_only_bind; [apply emits_only_getitem|]. intros lst.
    apply emits_only_bind; [apply emits_only_lift|]. intros mean.
    apply emits_only_bind; [apply emits_only_lift|]. intros mx.
    apply emits_only_bind; [apply emits_only_lift|]. intros mn.
    now apply emits_only_emit.
Qed.

(** X9.  In simulation mode the program only prints its report: whatever
    the constants and the uniform values are, and whether it ends normally
    or on an exception, it shows no image, reads no position, waits for no
    button and sends no command to a motor. *)
Theorem simulation_only_prints cfg env s :
  MODE cfg = "sim" ->
  exists evs,
    trace (final_state (main cfg env s)) = trace s ++ evs /\
    Forall is_report evs.
Proof.
  intros Hm. unfold main. rewrite Hm. simpl. apply emits_only_main_sim.
Qed.

Lemma simulation_only_prints_witness :
  exists evs,
    trace (final_state (main (with_n_sim source_config 0) example_env start)) = evs /\
    Forall is_report evs.
Proof.
  apply (simulation_only_prints (with_n_sim source_config 0) example_env start).
  reflexivity.
Defined.

(** ** Further properties of the physical board *)

(** X10.  The top hub never waits for its button.  Whatever the button
    does, its run returns; it runs the ball pump on port A for one
    rotation, once, after the positions are recorded and printed and before
    the first cycle; no cycle runs the pump or waits. *)
Theorem top_hub_feeds_once_and_never_waits cfg env :
  MODE cfg = "top" ->
  exists s',
    main cfg env start = Ok tt s' /\
    trace s'
    = (EvShowImage "HEART" :: (EvGetPosition <$> TOP_MOTOR_ORDER cfg)
         ++ [EvPrintPositions (captured cfg env); EvRunForRotations "A" 1])
        ++ concat (cycles cfg env 0 (Z.to_nat (B cfg))) /\
    Forall not_a_sync (concat (cycles cfg env 0 (Z.to_nat (B cfg)))).
Proof.
  intros Hm.
  assert (MODE cfg <> "sim") as Hns by (rewrite Hm; discriminate).
  rewrite (main_physical_mode cfg env Hns), main_physical_eq.
  unfold triggered, physical_prefix, sync_event, motor_order at 1 3.
  rewrite Hm. simpl. eexists. split; [reflexivity|]. split; [reflexivity|].
  apply cycles_Forall.
  - split; [discriminate|]. intros port n. discriminate.
  - intros c row id _. split; [discriminate|]. intros port n. discriminate.
  - intros id _. split; [discriminate|]. intros port n. discriminate.
Qed.

Lemma top_hub_feeds_once_and_never_waits_witness :
  exists s',
    main top_config example_env' start = Ok tt s' /\
    trace s'
    = (EvShowImage "HEART" :: (EvGetPosition <$> ["C"; "E"; "B"; "D"; "F"])
         ++ [EvPrintPositions (captured top_config example_env');
             EvRunForRotations "A" 1])
        ++ concat (cycles top_config example_env' 0 50) /\
    Forall not_a_sync (concat (cycles top_config example_env' 0 50)).
Proof.
  apply (top_hub_feeds_once_and_never_waits top_config example_env').
  reflexivity.
Defined.

(** X11.  On the physical board the program raises no exception, from any
    state and whatever the list of actuators is: every position it looks up
    was recorded.  It returns when the hub is the top one or the button is
    pressed, and hangs otherwise. *)
Theorem physical_run_never_raises cfg env s :
  MODE cfg <> "sim" ->
  match main cfg env s with
  | Ok _ _ => triggered cfg env = true
  | Hang _ => triggered cfg env = false
  | Raise _ _ => False
  end.
Proof.
  intros Hm. rewrite (main_physical_mode cfg env Hm), main_physical_eq.
  now destruct (triggered cfg env).
Qed.

Lemma physical_run_never_raises_witness :
  match main reg_config example_env' start with
  | Ok _ _ => triggered reg_config example_env' = true
  | Hang _ => triggered reg_config example_env' = false
  | Raise _ _ => False
  end.
Proof.
  apply (physical_run_never_raises reg_config example_env' start).
  simpl. discriminate.
Defined.

(** X12.  A physical run that starts its cycles draws one uniform value
    for each actuator of each cycle, [B] times the length of the hub's list
    in all ([B] counting as 0 when negative); a run that hangs draws
    none. *)
Theorem physical_run_draws_per_actuator cfg env s :
  MODE cfg <> "sim" ->
  cursor (final_state (main cfg env s))
  = if triggered cfg env
    then (cursor s + Z.to_nat (B cfg) * length (motor_order cfg))%nat
    else cursor s.
Proof.
  intros Hm. rewrite (main_physical_mode cfg env Hm), main_physical_eq.
  destruct (triggered cfg env); simpl; lia.
Qed.

Lemma physical_run_draws_per_actuator_witness :
  cursor (final_state (main top_config example_env start)) = (0 + 50 * 5)%nat.
Proof.
  apply (physical_run_draws_per_actuator top_config example_env start).
  simpl. discriminate.
Defined.

Lemma cycles_no_actuator cfg env c k :
  motor_order cfg = [] ->
  concat (cycles cfg env c k) = replicate k (EvWaitForSeconds 5).
Proof.
  intros Hmo. revert c. induction k as [|k IH]; intros c; [reflexivity|].
  cbn [cycles concat replicate]. rewrite IH.
  unfold cycle_events, move_commands. now rewrite Hmo.
Qed.

(** X13.  With an empty list of actuators nothing is rejected: the hub
    records no position, and each of its [B] cycles is the wait of 5 seconds
    alone, so that the run sends no command and draws no uniform value. *)
Theorem empty_motor_order_only_waits cfg env :
  MODE cfg <> "sim" -> motor_order cfg = [] -> triggered cfg env = true ->
  exists s',
    main cfg env start = Ok tt s' /\
    trace s'
    = [EvShowImage "HEART"; EvPrintPositions ∅; sync_event cfg]
        ++ replicate (Z.to_nat (B cfg)) (EvWaitForSeconds 5) /\
    cursor s' = 0%nat.
Proof.
  intros Hm Hmo Ht. rewrite (main_physical_mode cfg env Hm), main_physical_eq, Ht.
  eexists. split; [reflexivity|]. simpl.
  rewrite (cycles_no_actuator cfg env 0 _ Hmo).
  unfold physical_prefix, captured. rewrite Hmo. simpl. split; [reflexivity|lia].
Qed.

Lemma empty_motor_order_only_waits_witness :
  exists s',
    main (with_motor_orders top_config [] []) example_env start = Ok tt s' /\
    trace s'
    = [EvShowImage "HEART"; EvPrintPositions ∅; EvRunForRotations "A" 1]
        ++ replicate 50 (EvWaitForSeconds 5) /\
    cursor s' = 0%nat.
Proof.
  apply (empty_motor_order_only_waits (with_motor_orders top_config [] []) example_env).
  - simpl. discriminate.
  - reflexivity.
  - reflexivity.
Defined.

(** X14.  With [B <= 0] the loop runs no cycle: after the startup and the
    feed or the wait, the run returns without a command and without a
    draw. *)
Theorem no_ball_no_cycle cfg env :
  MODE cfg <> "sim" -> B cfg <= 0 -> triggered cfg env = true ->
  exists s',
    main cfg env start = Ok tt s' /\
    trace s' = physical_prefix cfg env /\
    cursor s' = 0%nat.
Proof.
  intros Hm HB Ht. rewrite (main_physical_mode cfg env Hm), main_physical_eq, Ht.
  replace (Z.to_nat (B cfg)) with O by lia.
  eexists. split; [reflexivity|]. simpl. now rewrite app_nil_r.
Qed.

Lemma no_ball_no_cycle_witness :
  exists s',
    main (with_B top_config 0) example_env start = Ok tt s' /\
    trace s' = physical_prefix (with_B top_config 0) example_env /\
    cursor s' = 0%nat.
Proof.
  apply (no_ball_no_cycle (with_B top_config 0) example_env).
  - simpl. discriminate.
  - simpl. lia.
  - reflexivity.
Defined.

(** ** Where the actuators end *)

Lemma last_target_app port evs1 evs2 :
  last_target port (evs1 ++ evs2)
  = match last_target port evs2 with
    | Some pos => Some pos
    | None => last_target port evs1
    end.
Proof.
  unfold last_target. rewrite foldl_app.
  generalize (foldl (fun acc ev =>
                       match ev with
                       | EvRunToPosition port' pos _ _ =>
                           if String.eqb port' port then Some pos else acc
                       | _ => acc
                       end) None evs1).
  intros acc. revert acc. induction evs2 as [|ev evs2 IH] using rev_ind; intros acc.
  - reflexivity.
  - rewrite !foldl_app. cbn [foldl]. destruct ev; try apply IH.
    destruct (String.eqb port0 port); [reflexivity|apply IH].
Qed.

Lemma last_target_resets cfg env port (l : list string) :
  port ∈ l ->
  last_target port (reset_command cfg env <$> l) = Some (get_position env port).
Proof.
  induction l as [|id l IH] using rev_ind; intros Hin.
  - by apply elem_of_nil in Hin.
  - rewrite fmap_app, last_target_app. cbn [fmap list_fmap].
    unfold last_target at 1. cbn [foldl reset_command].
    destruct (String.eqb_spec id port) as [->|Hne]; [reflexivity|].
    apply IH. apply elem_of_app in Hin as [Hin|Hin]; [exact Hin|].
    apply list_elem_of_singleton in Hin. congruence.
Qed.

Lemma last_target_cycles cfg env port c k :
  port ∈ motor_order cfg -> (0 < k)%nat ->
  last_target port (concat (cycles cfg env c k)) = Some (get_position env port).
Proof.
  intros Hin. revert c. induction k as [|k IH]; intros c Hk; [lia|].
  cbn [cycles concat]. rewrite last_target_app.
  destruct k as [|k].
  - simpl. unfold cycle_events. rewrite !last_target_app.
    now rewrite last_target_resets.
  - now rewrite IH by lia.
Qed.

(** X15.  A physical run of at least one cycle leaves every actuator of the
    hub's list where it was at startup: the last command each of them gets
    is the one that sends it back to its recorded position. *)
Theorem actuators_end_at_initial_position cfg env :
  MODE cfg <> "sim" -> triggered cfg env = true -> 0 < B cfg ->
  exists s',
    main cfg env start = Ok tt s' /\
    forall port, port ∈ motor_order cfg ->
                 last_target port (trace s') = Some (get_position env port).
Proof.
  intros Hm Ht HB. rewrite (main_physical_mode cfg env Hm), main_physical_eq, Ht.
  eexists. split; [reflexivity|]. intros port Hport.
  unfold start. cbn [trace add_events advance set_positions app].
  rewrite last_target_app, last_target_cycles by (done || lia). reflexivity.
Qed.

Lemma actuators_end_at_initial_position_witness :
  exists s',
    main top_config example_env start = Ok tt s' /\
    forall port, port ∈ ["C"; "E"; "B"; "D"; "F"] ->
                 last_target port (trace s') = Some (get_position example_env port).
Proof.
  apply (actuators_end_at_initial_position top_config example_env).
  - simpl. discriminate.
  - reflexivity.
  - simpl. lia.
Defined.

(** ** Rows and hubs alternate *)

(** The body of the loop over the actuators, on any recorded position. *)
Lemma move_motor_target cfg env id row_count s p :
  initial_positions s !! id = Some p ->
  move_motor cfg env id row_count s
  = Ok (row_count + 1)
       (add_events
          [EvRunToPosition id
             (if move_right (drawn_right cfg env (cursor s))
                   ((parity_start cfg + (row_count + 1)) mod 2)
              then (p + MOTOR_OPENING_DEGREES cfg) mod 360
              else (p - MOTOR_OPENING_DEGREES cfg) mod 360)
             "shortest path" (MOTOR_SPEED cfg)]
          (advance 1 s)).
Proof.
  intros Hid. unfold move_motor. erewrite bind_Ok by apply bern_eq.
  unfold drawn_right, bern_value.
  set (parity := (parity_start cfg + (row_count + 1)) mod 2).
  assert (parity = 0 \/ parity = 1) as Hpar
    by (pose proof (Z.mod_pos_bound (parity_start cfg + (row_count + 1)) 2); lia).
  unfold recorded_position, run_to_position, bind, getitem, ret, emit, truthy,
    move_right.
  destruct (Qlt_le_dec (uniform env (cursor s)) (P cfg)), Hpar as [-> | ->];
    simpl; rewrite Hid; reflexivity.
Qed.

Lemma move_right_flips right (x : Z) :
  move_right right ((x + 1) mod 2) = negb (move_right right (x mod 2)).
Proof.
  replace ((x + 1) mod 2) with (1 - x mod 2)
    by (pose proof (Z.mod_pos_bound x 2); rewrite Z.add_mod by lia;
        assert (x mod 2 = 0 \/ x mod 2 = 1) as [-> | ->] by lia; reflexivity).
  assert (x mod 2 = 0 \/ x mod 2 = 1) as [-> | ->]
    by (pose proof (Z.mod_pos_bound x 2); lia);
    now destruct right.
Qed.



(** X17.  On the same draw and in the same row of its list, the top hub
    and another hub send an actuator opposite ways: the parity of the top
    hub starts at 1 and that of the others at 0. *)
Theorem top_and_other_hubs_turn_opposite_ways cfg env mode id row_count s p :
  mode <> "top" ->
  initial_positions s !! id = Some p ->
  exists t1 t2,
    move_motor (with_MODE cfg "top") env id row_count s
    = Ok (row_count + 1)
         (add_events [EvRunToPosition id t1 "shortest path" (MOTOR_SPEED cfg)]
            (advance 1 s)) /\
    move_motor (with_MODE cfg mode) env id row_count s
    = Ok (row_count + 1)
         (add_events [EvRunToPosition id t2 "shortest path" (MOTOR_SPEED cfg)]
            (advance 1 s)) /\
    ((t1 = (p + MOTOR_OPENING_DEGREES cfg) mod 360 /\
      t2 = (p - MOTOR_OPENING_DEGREES cfg) mod 360) \/
     (t1 = (p - MOTOR_OPENING_DEGREES cfg) mod 360 /\
      t2 = (p + MOTOR_OPENING_DEGREES cfg) mod 360)).
Proof.
  intros Hmode Hid.
  rewrite (move_motor_target (with_MODE cfg "top") env id _ s p Hid).
  rewrite (move_motor_target (with_MODE cfg mode) env id _ s p Hid).
  eexists _, _. split; [reflexivity|]. split; [reflexivity|].
  unfold parity_start. cbn [MODE with_MODE MOTOR_OPENING_DEGREES].
  apply String.eqb_neq in Hmode. rewrite Hmode. cbn [String.eqb Ascii.eqb Bool.eqb].
  replace (1 + (row_count + 1)) with (0 + (row_count + 1) + 1) by lia.
  rewrite move_right_flips.
  change (drawn_right (with_MODE cfg "top") env) with (drawn_right (with_MODE cfg mode) env).
  destruct (move_right _ _); simpl; auto.
Qed.

Lemma top_and_other_hubs_turn_opposite_ways_witness :
  exists t1 t2,
    move_motor (with_MODE source_config "top") example_env "C" 0
      (set_positions (captured top_config example_env) start)
    = Ok (0 + 1)
         (add_events [EvRunToPosition "C" t1 "shortest path" 10]
            (advance 1 (set_positions (captured top_config example_env) start))) /\
    move_motor (with_MODE source_config "reg") example_env "C" 0
      (set_positions (captured top_config example_env) start)
    = Ok (0 + 1)
         (add_events [EvRunToPosition "C" t2 "shortest path" 10]
            (advance 1 (set_positions (captured top_config example_env) start))) /\
    ((t1 = (350 + 30) mod 360 /\ t2 = (350 - 30) mod 360) \/
     (t1 = (350 - 30) mod 360 /\ t2 = (350 + 30) mod 360)).
Proof.
  apply (top_and_other_hubs_turn_opposite_ways source_config example_env "reg" "C" 0
           (set_positions (captured top_config example_env) start) 350).
  - discriminate.
  - reflexivity.
Defined.

(** ** Any other mode is a secondary hub *)

Section OtherModes.

Variable cfg : config.
Variable env : environment.
Hypothesis not_top : String.eqb (MODE cfg) "top" = false.

Lemma motor_order_other_mode : motor_order (with_MODE cfg "reg") = motor_order cfg.
Proof. unfold motor_order. simpl. now rewrite not_top. Qed.

Lemma move_command_other_mode c row id :
  move_command (with_MODE cfg "reg") env c row id = move_command cfg env c row id.
Proof. unfold move_command, role_of. simpl. now rewrite not_top. Qed.

Lemma cycle_events_other_mode c :
  cycle_events (with_MODE cfg "reg") env c = cycle_events cfg env c.
Proof.
  unfold cycle_events, move_commands. rewrite motor_order_other_mode.
  f_equal. apply imap_ext. intros j id _. apply move_command_other_mode.
Qed.

Lemma cycles_other_mode c k :
  cycles (with_MODE cfg "reg") env c k = cycles cfg env c k.
Proof.
  revert c. induction k as [|k IH]; intros c; [reflexivity|].
  cbn [cycles]. now rewrite cycle_events_other_mode, motor_order_other_mode, IH.
Qed.

Lemma physical_prefix_other_mode :
  physical_prefix (with_MODE cfg "reg") env = physical_prefix cfg env.
Proof.
  unfold physical_prefix, captured, sync_event. rewrite motor_order_other_mode.
  simpl. now rewrite not_top.
Qed.

End OtherModes.

(** X18.  Every mode other than ["sim"] and ["top"] selects the same run as
    ["reg"]: the list and the parity of the other hubs, and the wait for the
    button. *)
Theorem other_modes_run_as_reg cfg env s :
  MODE cfg <> "sim" -> MODE cfg <> "top" ->
  main cfg env s = main (with_MODE cfg "reg") env s.
Proof.
  intros Hsim Htop. apply String.eqb_neq in Htop.
  rewrite (main_physical_mode cfg env Hsim).
  rewrite (main_physical_mode (with_MODE cfg "reg") env) by (simpl; discriminate).
  rewrite !main_physical_eq.
  rewrite (physical_prefix_other_mode cfg env Htop), (cycles_other_mode cfg env Htop),
    (motor_order_other_mode cfg Htop).
  unfold triggered, captured. rewrite (motor_order_other_mode cfg Htop).
  simpl. now rewrite Htop.
Qed.

Lemma other_modes_run_as_reg_witness :
  main (with_MODE source_config "Top") example_env start
  = main (with_MODE (with_MODE source_config "Top") "reg") example_env start.
Proof.
  apply (other_modes_run_as_reg (with_MODE source_config "Top") example_env start);
    simpl; discriminate.
Defined.

(** ** The report with a negative number of levels *)

Lemma trials_loop_no_bin cfg env {A} (l : list A) (t : gmap Z (list Z)) s :
  N cfg < 0 -> B_SIM cfg <= 0 ->
  for_in l (fun _ t => one_trial cfg env t) t s = Ok t s.
Proof.
  intros HN HB. induction l as [|x l IH]; [reflexivity|].
  cbn [for_in]. unfold bind at 1. unfold one_trial at 1, run_one_simulation.
  rewrite (range_nonpos (N cfg + 1)), (range_nonpos (B_SIM cfg)) by lia.
  exact IH.
Qed.

(** X19.  With a negative number of levels there is no bin.  When there are
    a trial and a ball, the first ball of the first trial raises [KeyError]
    before anything is printed or drawn; otherwise the report is its header
    alone, even without a trial: no mean is computed, so nothing divides by
    zero. *)
Theorem main_sim_negative_levels cfg env s :
  N cfg < 0 ->
  main_sim cfg env s
  = if decide (0 < n_sim cfg /\ 0 < B_SIM cfg)
    then Raise KeyError s
    else Ok tt (add_events [EvPrintHeader (n_sim cfg)] s).
Proof.
  intros HN. rewrite main_sim_unfold.
  destruct (decide (0 < n_sim cfg /\ 0 < B_SIM cfg)) as [[Hn HB]|Hno].
  - replace (n_sim cfg) with (n_sim cfg - 1 + 1) by lia.
    rewrite (range_succ (n_sim cfg - 1)) by lia.
    cbn [for_in]. unfold bind at 1 2. unfold one_trial at 1. unfold bind at 1.
    unfold run_one_simulation.
    rewrite (range_nonpos (N cfg + 1)), (range_nonpos (N cfg)) by lia.
    replace (B_SIM cfg) with (B_SIM cfg - 1 + 1) by lia.
    rewrite (range_succ (B_SIM cfg - 1)) by lia. reflexivity.
  - rewrite (range_nonpos (N cfg + 1)) by lia.
    destruct (Z_lt_le_dec 0 (n_sim cfg)) as [Hn|Hn].
    + erewrite bind_Ok by (apply trials_loop_no_bin; lia). reflexivity.
    + rewrite (range_nonpos (n_sim cfg)) by done. reflexivity.
Qed.

Lemma main_sim_negative_levels_witness :
  main_sim (with_N source_config (-1)) example_env start = Raise KeyError start.
Proof.
  apply (main_sim_negative_levels (with_N source_config (-1)) example_env start).
  simpl. lia.
Defined.

(** Each bin gets one ball in three trials: its mean, one third, is printed
    as 0.3, with the maximum 1 and the minimum 0. *)
Example thirds_are_printed_rounded :
  trace (final_state (main thirds_config thirds_env start))
  = [EvPrintHeader 3;
     EvPrintBin "     Left " 0 (3 # 10)%Q 1 0;
     EvPrintBin "            " 1 (3 # 10)%Q 1 0;
     EvPrintBin "   Right " 2 (3 # 10)%Q 1 0].
Proof. vm_compute. reflexivity. Qed.
